(** * Stable Diffusion 2 playground: a model of [main.py]

    [main.py] is a Streamlit script: every interaction of the user with the
    page re-runs [main()] from the top.  One run reads the values the
    front-end holds for the widgets, may call the external [generate]
    function of [sd2.generate], reads and writes [st.session_state], and
    writes page elements.

    A piece of the script is modelled as a function from the calls the run
    has made so far and the session (the part of the program state that
    survives between runs) to an outcome, the session afterwards, and the
    list of calls it made to Streamlit, PIL and [generate], in program
    order.  Memory is taken to be unbounded: no call fails for lack of
    it. *)

From Stdlib Require Import QArith Qcanon.
From stdpp Require Import base numbers strings list gmap pretty.

Local Open Scope Z_scope.

(** ** Constants of the module *)

Definition DEFAULT_PROMPT : string := "border collie puppy".
Definition DEFAULT_WIDTH : Z := 512.
Definition DEFAULT_HEIGHT : Z := 512.
Definition OUTPUT_IMAGE_KEY : string := "output_img".
Definition LOADED_IMAGE_KEY : string := "loaded_image".

(** ** PIL images

    The script never looks at pixels, with one exception: the alpha channel
    of the canvas drawing.  The contents of an image are therefore kept
    symbolic, recording which call made them. *)

Inductive Pixels : Type :=
| Opaque (tag : nat)
    (* contents the script only passes around: a decoded file, the output of
       the pipeline *)
| Resampled (src_width src_height : Z) (src : Pixels)
    (* contents made by [Image.resize] from an image of the given size *)
| Bilevel (bits : list (list bool))
    (* contents made by [Image.fromarray] from a boolean array *)
| Pending.
    (* contents of a file of which [Image.open] has read the header only and
       which cannot be decoded *)

Module Image.
Record t : Type := { width : Z; height : Z; pixels : Pixels }.
End Image.

(** No call of the script mutates an image, so a Python image object is
    its identity together with its contents; [Image.copy] and the other
    constructors of images return an object with a fresh identity. *)
Record ImageObj : Type := { oid : nat; data : Image.t }.

Definition img_width (o : ImageObj) : Z := Image.width (data o).
Definition img_height (o : ImageObj) : Z := Image.height (data o).

(** What [Image.open] returns.  [Image.open] is lazy: it reads the header
    of the file, which gives the size, and leaves the data to the first call
    that needs it; [decodable] tells whether reading the data will
    succeed. *)
Record ImageFile : Type := { opened : ImageObj; decodable : bool }.

(** The values that flow into keyword arguments of [generate]. *)
Inductive PyVal : Type :=
| PyNone
| PyInt (n : Z)
| PyImage (img : ImageObj).

Definition py_of_image (o : option ImageObj) : PyVal :=
  match o with Some img => PyImage img | None => PyNone end.

(** ** Arguments and results of the external calls *)

Record SliderSpec (N : Type) : Type :=
  { min_value : N; max_value : N; step : N; value : N }.
Arguments min_value {N} _.
Arguments max_value {N} _.
Arguments step {N} _.
Arguments value {N} _.

(** The file a [st.file_uploader] returns.  [file_image] is the image PIL
    decodes from it, [None] when PIL cannot decode the file.  Of a file it
    cannot decode, [file_header] is the size [Image.open] reads from the
    header, [None] when [Image.open] does not identify the file as an
    image. *)
Record UploadedFile : Type :=
  { file_name : string;
    file_image : option Image.t;
    file_header : option (Z * Z) }.

Record RGBA : Type := { red : Z; green : Z; blue : Z; alpha : Z }.

(** [canvas_result.image_data]: an array of shape (height, width, 4). *)
Record CanvasResult : Type :=
  { image_data : option (list (list RGBA)) }.

Record CanvasArgs : Type :=
  { fill_color : string;
    stroke_width : Z;
    stroke_color : string;
    background_color : string;
    background_image : ImageObj;
    update_streamlit : bool;
    canvas_height : Z;
    canvas_width : Z;
    drawing_mode : string;
    canvas_key : string }.

(** One call [generate(prompt, pipeline_name, negative_prompt=...,
    steps=..., guidance_scale=..., **kwargs)].  A Python float is modelled
    by the rational it denotes. *)
Record GenerateCall : Type :=
  { g_prompt : string;
    g_pipeline_name : string;
    g_negative_prompt : string;
    g_steps : Z;
    g_guidance_scale : Qc;
    g_kwargs : list (string * PyVal) }.

(** The environment of one run: what the front-end holds for each widget,
    and the external [generate].  A widget is identified by the arguments of
    its call.  [generate] gives [None] when the pipeline raises. *)
Record Env : Type :=
  { env_text_area : string → string → string → string;
      (* label, value, key *)
    env_slider_int : string → SliderSpec Z → string → Z;
    env_slider_float : string → SliderSpec Qc → string → Qc;
    env_number_input : string → Z → Z → Z → Z;
      (* label, value, min_value, max_value *)
    env_button : string → option string → bool;
    env_file_uploader : string → list string → string → option UploadedFile;
    env_canvas : CanvasArgs → option CanvasResult;
    env_generate : GenerateCall → option Image.t }.

(** What Streamlit promises about a slider: the value lies between the
    bounds; an integer slider moves in multiples of [step] from
    [min_value]. *)
Definition slider_contract (env : Env) : Prop :=
  (∀ label spec key,
      min_value spec ≤ max_value spec → 0 < step spec →
      min_value spec ≤ env_slider_int env label spec key ≤ max_value spec
      ∧ (step spec | env_slider_int env label spec key - min_value spec))
  ∧ (∀ label spec key,
      (min_value spec ≤ max_value spec)%Qc →
      (min_value spec ≤ env_slider_float env label spec key
                      ≤ max_value spec)%Qc).

(** ** The log of a run *)

(** The blocks [with tab:], [with col:], [with st.sidebar:] and
    [with st.spinner(...):]. *)
Inductive Container : Type :=
| Tab (i : nat)
| Column (i : nat)
| Sidebar
| Spinner (text : string).

#[export] Instance Container_eq_dec : EqDecision Container.
Proof. solve_decision. Defined.

Inductive Action : Type :=
| SetPageConfig (layout : string)
| Title (body : string)
| Header (body : string)
| Markdown (body : string)
| Tabs (labels : list string)
| Columns (n : nat)
| TextArea (label key : string) (ret : string)
| SliderInt (label key : string) (ret : Z)
| SliderFloat (label key : string) (ret : Qc)
| NumberInput (label : string) (ret : Z)
| Button (label : string) (key : option string) (clicked : bool)
| FileUploader (label key : string) (ret : option UploadedFile)
| Canvas (args : CanvasArgs)
| ShowImage (img : ImageObj)                       (* st.image *)
| Print (line : string)
| Pil (method : string) (self : option ImageObj) (ret : option ImageObj)
    (* a call into PIL.Image, by the name of the function or method; [ret]
       is [None] when the call raises *)
| Generate (call : GenerateCall) (ret : option ImageObj)
| ExperimentalRerun.

(** An action together with the [with] blocks around it, outermost first. *)
Record Event : Type := { scope : list Container; what : Action }.

Definition inside (c : Container) (e : Event) : Event :=
  {| scope := c :: scope e; what := what e |}.

(** The calls of a log that [f] picks, in order. *)
Definition select {B} (f : Action → option B) (t : list Event) : list B :=
  omap (λ e, f (what e)) t.

(** The [key=] argument of a widget. *)
Definition widget_key (a : Action) : option string :=
  match a with
  | TextArea _ key _ | SliderInt _ key _ | SliderFloat _ key _
  | FileUploader _ key _ => Some key
  | Button _ key _ => key
  | Canvas args => Some (canvas_key args)
  | _ => None
  end.

(** ** Session and the monad of a run *)

(** The value Streamlit keeps in [st.session_state] for a widget that was
    given a key. *)
Inductive WidgetValue : Type :=
| TextValue (v : string)
| IntValue (v : Z)
| FloatValue (v : Qc)
| BoolValue (v : bool)
| FileValue (v : option UploadedFile)
| CanvasValue (v : option CanvasResult).

(** [st.session_state] holds two kinds of entries: the images the script
    stores with [set_image], and the value of every widget that was laid out
    with a key, which Streamlit enters under that key.  The script reads
    only entries of the first kind, under keys that no widget has; the two
    kinds are kept apart. *)
Record State : Type :=
  { session_state : gmap string ImageObj;     (* images stored by the script *)
    widget_state : gmap string WidgetValue;   (* values of the keyed widgets *)
    next_oid : nat }.                         (* identities handed out so far *)

Inductive Exn : Type :=
| UnidentifiedImageError     (* Image.open on a file that is no image *)
| OSError                    (* PIL on a file whose data it cannot decode *)
| OverflowError              (* a size that does not fit a C int *)
| ValueError                 (* Image.resize to a size below 1 *)
| PipelineError              (* raised inside generate *)
| StreamlitAPIException      (* an assignment to the key of a widget that
                                the run has laid out already *)
| RerunException.            (* st.experimental_rerun *)

Inductive Outcome (A : Type) : Type :=
| Ok (a : A)
| Raise (e : Exn).
Arguments Ok {A} a.
Arguments Raise {A} e.

(** The first argument is the log of the run so far: Streamlit's answer to
    an assignment to [st.session_state] depends on the widgets already laid
    out in this run. *)
Definition M (A : Type) : Type :=
  list Event → State → Outcome A * State * list Event.

Definition outcome_at {A} (log : list Event) (m : M A) (s : State)
  : Outcome A := (m log s).1.1.
Definition final_at {A} (log : list Event) (m : M A) (s : State) : State :=
  (m log s).1.2.
Definition trace_at {A} (log : list Event) (m : M A) (s : State)
  : list Event := (m log s).2.

(** A piece run at the start of a run. *)
Definition outcome {A} (m : M A) (s : State) : Outcome A := outcome_at [] m s.
Definition final {A} (m : M A) (s : State) : State := final_at [] m s.
Definition trace {A} (m : M A) (s : State) : list Event := trace_at [] m s.

Definition ret {A} (a : A) : M A := λ _ s, (Ok a, s, []).

Definition bind {A B} (m : M A) (f : A → M B) : M B := λ log s,
  match m log s with
  | (Ok a, s1, t1) =>
      let '(r, s2, t2) := f a (log ++ t1) s1 in (r, s2, t1 ++ t2)
  | (Raise e, s1, t1) => (Raise e, s1, t1)
  end.

#[export] Instance M_ret : MRet M := @ret.
#[export] Instance M_bind : MBind M := λ A B f m, bind m f.

Definition raise {A} (e : Exn) : M A := λ _ s, (Raise e, s, []).

Definition emit (a : Action) : M unit := λ _ s,
  (Ok tt, s, [ {| scope := []; what := a |} ]).

(** [with c: m] *)
Definition with_ {A} (c : Container) (m : M A) : M A := λ log s,
  let '(r, s', t) := m log s in (r, s', inside c <$> t).

(** The session after one more identity was handed out. *)
Definition allocated (s : State) : State :=
  {| session_state := session_state s;
     widget_state := widget_state s;
     next_oid := S (next_oid s) |}.

(** A new image object. *)
Definition new_image (d : Image.t) : M ImageObj := λ _ s,
  (Ok {| oid := next_oid s; data := d |}, allocated s, []).

Definition store (key : string) (img : ImageObj) (s : State) : State :=
  {| session_state := <[key := img]> (session_state s);
     widget_state := widget_state s;
     next_oid := next_oid s |}.

Definition set_widget (key : string) (v : WidgetValue) (s : State) : State :=
  {| session_state := session_state s;
     widget_state := <[key := v]> (widget_state s);
     next_oid := next_oid s |}.

(** Streamlit enters the value of a widget laid out with a key into
    [st.session_state]. *)
Definition register (key : string) (v : WidgetValue) : M unit := λ _ s,
  (Ok tt, set_widget key v s, []).

(** ** The calls into Streamlit, PIL and the pipeline

    The script gives its widgets pairwise different keys (shown below), so
    Streamlit's refusal of a key used twice in one run is left out. *)

Module st.
Section Streamlit.
Context (env : Env).

Definition set_page_config (layout : string) : M unit :=
  emit (SetPageConfig layout).
Definition title (body : string) : M unit := emit (Title body).
Definition header (body : string) : M unit := emit (Header body).
Definition markdown (body : string) : M unit := emit (Markdown body).
Definition image (img : ImageObj) : M unit := emit (ShowImage img).

(** [st.tabs(labels)] and [st.columns(n)] return the containers
    [Tab 0], [Tab 1], ... and [Column 0], [Column 1], ... *)
Definition tabs (labels : list string) : M unit := emit (Tabs labels).
Definition columns (n : nat) : M unit := emit (Columns n).

Definition text_area (label value key : string) : M string :=
  let v := env_text_area env label value key in
  emit (TextArea label key v);; register key (TextValue v);; mret v.

Definition slider_int (label : string) (spec : SliderSpec Z) (key : string)
  : M Z :=
  let v := env_slider_int env label spec key in
  emit (SliderInt label key v);; register key (IntValue v);; mret v.

Definition slider_float (label : string) (spec : SliderSpec Qc)
    (key : string) : M Qc :=
  let v := env_slider_float env label spec key in
  emit (SliderFloat label key v);; register key (FloatValue v);; mret v.

(** The script gives no key to its number input. *)
Definition number_input (label : string) (value min_value max_value : Z)
  : M Z :=
  let v := env_number_input env label value min_value max_value in
  emit (NumberInput label v);; mret v.

Definition button (label : string) (key : option string) : M bool :=
  let b := env_button env label key in
  emit (Button label key b);;
  match key with
  | Some key => register key (BoolValue b)
  | None => mret tt
  end;;
  mret b.

Definition file_uploader (label : string) (types : list string)
    (key : string) : M (option UploadedFile) :=
  let f := env_file_uploader env label types key in
  emit (FileUploader label key f);; register key (FileValue f);; mret f.

Definition st_canvas (args : CanvasArgs) : M (option CanvasResult) :=
  let r := env_canvas env args in
  emit (Canvas args);; register (canvas_key args) (CanvasValue r);; mret r.

Definition experimental_rerun : M unit :=
  emit ExperimentalRerun;; raise RerunException.
End Streamlit.
End st.

(** [print(line)] *)
Definition print (line : string) : M unit := emit (Print line).

(** [Image.open(file)]: reads the header; a file that is no image is
    refused here, a file whose data cannot be decoded is not. *)
Definition Image_open (file : UploadedFile) : M ImageFile :=
  match file_image file with
  | Some d =>
      img ← new_image d;
      emit (Pil "open" None (Some img));;
      mret {| opened := img; decodable := true |}
  | None =>
      match file_header file with
      | Some (width, height) =>
          img ← new_image {| Image.width := width; Image.height := height;
                             Image.pixels := Pending |};
          emit (Pil "open" None (Some img));;
          mret {| opened := img; decodable := false |}
      | None => emit (Pil "open" None None);; raise UnidentifiedImageError
      end
  end.

(** The bounds of a C [int]. *)
Definition INT_MIN : Z := -2147483648.
Definition INT_MAX : Z := 2147483647.

Definition fits_int (n : Z) : bool := (INT_MIN <=? n) && (n <=? INT_MAX).

(** [img.resize((width, height))] on an image from [Image.open]: the data
    is read first, then the size is handed to the C core, which wants two C
    ints, both at least 1; the result is a new image of exactly that
    size. *)
Definition Image_resize (img : ImageFile) (width height : Z) : M ImageObj :=
  if negb (decodable img) then
    emit (Pil "resize" (Some (opened img)) None);; raise OSError
  else if negb (fits_int width && fits_int height) then
    emit (Pil "resize" (Some (opened img)) None);; raise OverflowError
  else if (width <? 1) || (height <? 1) then
    emit (Pil "resize" (Some (opened img)) None);; raise ValueError
  else
    r ← new_image {| Image.width := width; Image.height := height;
                     Image.pixels :=
                       Resampled (img_width (opened img))
                                 (img_height (opened img))
                                 (Image.pixels (data (opened img))) |};
    emit (Pil "resize" (Some (opened img)) (Some r));; mret r.

(** [img.copy()]: a new object with the same contents. *)
Definition Image_copy (img : ImageObj) : M ImageObj :=
  c ← new_image (data img);
  emit (Pil "copy" (Some img) (Some c));; mret c.

(** [Image.fromarray(mask)] for a two-dimensional boolean array: as wide as
    a row is long and as high as there are rows. *)
Definition Image_fromarray (mask : list (list bool)) : M ImageObj :=
  r ← new_image {| Image.width := Z.of_nat (length (default [] (head mask)));
                   Image.height := Z.of_nat (length mask);
                   Image.pixels := Bilevel mask |};
  emit (Pil "fromarray" None (Some r));; mret r.

(** [from sd2.generate import generate]: external; it returns a new image
    or raises. *)
Definition generate (env : Env) (call : GenerateCall) : M ImageObj :=
  match env_generate env call with
  | Some d => img ← new_image d; emit (Generate call (Some img));; mret img
  | None => emit (Generate call None);; raise PipelineError
  end.

(** ** main.py

    A test [if image:] on an [Optional[Image]] or on an optional uploaded
    file is a test for [None]: neither class defines [__bool__] or
    [__len__]. *)

(** [def get_image(key)]: the stored image, or [None].  Modelled for the
    keys under which the session holds an image or nothing. *)
Definition get_image (key : string) : M (option ImageObj) := λ _ s,
  (Ok match session_state s !! key with
      | Some img => Some img
      | None => None
      end,
   s, []).

(** [def set_image(key, img)]: Streamlit refuses the assignment when a
    widget with this key was laid out earlier in the run. *)
Definition set_image (key : string) (img : ImageObj) : M unit := λ log s,
  if bool_decide (key ∈ select widget_key log)
  then (Raise StreamlitAPIException, s, [])
  else (Ok tt, store key img s, []).

(** [mask[:, :, -1] > 0] *)
Definition alpha_positive (image_data : list (list RGBA))
  : list (list bool) :=
  map (map (λ px, 0 <? alpha px)) image_data.

(** [mask.sum()]: the number of [True] entries. *)
Definition mask_sum (mask : list (list bool)) : Z :=
  Z.of_nat (length (filter (λ b, b = true) (concat mask))).

Section Script.
Context (env : Env).

Definition prompt_and_generate_button (prefix pipeline_name : string)
    (kwargs : list (string * PyVal)) : M unit :=
  prompt ← st.text_area env "Prompt" DEFAULT_PROMPT (prefix +:+ "-prompt");
  negative_prompt ←
    st.text_area env "Negative prompt" "" (prefix +:+ "-negative-prompt");
  steps ←
    (* no [step] is given: an integer slider then moves by 1 *)
    st.slider_int env "Number of inference steps"
      {| min_value := 1; max_value := 200; step := 1; value := 50 |}
      (prefix +:+ "-steps");
  guidance_scale ←
    st.slider_float env "Guidance scale"
      {| min_value := Q2Qc 0; max_value := Q2Qc 20;
         step := Q2Qc (1 # 2); value := Q2Qc (15 # 2) |}
      (prefix +:+ "-guidance");
  clicked ← st.button env "Generate image" (Some (prefix +:+ "-btn"));
  if clicked : bool then
    image ← with_ (Spinner "Generating image...")
      (image ← generate env
         {| g_prompt := prompt;
            g_pipeline_name := pipeline_name;
            g_negative_prompt := negative_prompt;
            g_steps := steps;
            g_guidance_scale := guidance_scale;
            g_kwargs := kwargs |};
       copy ← Image_copy image;
       set_image OUTPUT_IMAGE_KEY copy;;
       mret image);
    st.image image
  else mret tt.

Definition width_and_height_sliders (prefix : string) : M (Z * Z) :=
  st.columns 2;;
  width ← with_ (Column 0)
    (st.slider_int env "Width"
       {| min_value := 64; max_value := 1024; step := 64; value := 512 |}
       (prefix +:+ "-width"));
  height ← with_ (Column 1)
    (st.slider_int env "Height"
       {| min_value := 64; max_value := 1024; step := 64; value := 512 |}
       (prefix +:+ "-height"));
  mret (width, height).

Definition image_uploader (prefix : string) (width height : Z)
  : M (option ImageObj) :=
  image ← st.file_uploader env "Image" ["jpg"; "png"]
            (prefix +:+ "-uploader");
  match image with
  | Some file =>
      image ← Image_open file;
      print ("loaded input image of size ("
             +:+ pretty (img_width (opened image))
             +:+ ", " +:+ pretty (img_height (opened image)) +:+ ")");;
      image ← Image_resize image width height;
      mret (Some image)
  | None => get_image LOADED_IMAGE_KEY
  end.

Definition inpainting : M (option ImageObj * option ImageObj) :=
  image ← image_uploader "inpainting" DEFAULT_WIDTH DEFAULT_HEIGHT;
  match image with
  | None => mret (None, None)
  | Some image =>
      brush_size ← st.number_input env "Brush Size" 50 1 100;
      canvas_result ← st.st_canvas env
        {| fill_color := "rgba(255, 255, 255, 0.0)";
           stroke_width := brush_size;
           stroke_color := "#FFFFFF";
           background_color := "#000000";
           background_image := image;
           update_streamlit := true;
           canvas_height := img_height image;
           canvas_width := img_width image;
           drawing_mode := "freedraw";
           canvas_key := "inpainting" |};
      match canvas_result with
      | None => mret (None, None)
      | Some canvas_result =>
          match image_data canvas_result with
          | None => mret (None, None)
          | Some mask =>
              let mask := alpha_positive mask in
              if 0 <? mask_sum mask then
                mask ← Image_fromarray mask;
                st.image mask;;
                mret (Some image, Some mask)
              else mret (None, None)
          end
      end
  end.

Definition txt2img_tab : M unit :=
  let prefix := "txt2img" in
  '(width, height) ← width_and_height_sliders prefix;
  prompt_and_generate_button prefix "txt2img"
    [("width", PyInt width); ("height", PyInt height)].

Definition inpainting_tab : M unit :=
  st.columns 2;;
  '(image_input, mask_input) ← with_ (Column 0) inpainting;
  with_ (Column 1)
    (match image_input, mask_input with
     | Some image_input, Some mask_input =>
         prompt_and_generate_button "inpaint" "inpaint"
           [("image_input", PyImage image_input);
            ("mask_input", PyImage mask_input)]
     | _, _ => mret tt
     end).

Definition img2img_tab : M unit :=
  st.columns 2;;
  image ← with_ (Column 0)
    (image ← image_uploader "img2img" DEFAULT_WIDTH DEFAULT_HEIGHT;
     match image with
     | Some img => st.image img
     | None => mret tt
     end;;
     mret image);
  with_ (Column 1)
    (match image with
     | Some img =>
         prompt_and_generate_button "img2img" "img2img"
           [("image_input", PyImage img)]
     | None => mret tt
     end).

Definition upscale_tab : M unit :=
  let prefix := "upscale" in
  image ← image_uploader prefix 256 256;
  match image with
  | Some img => st.image img
  | None => mret tt
  end;;
  prompt_and_generate_button prefix "upscale"
    [("image_input", py_of_image image)].

(** The block [with st.sidebar:] of [main]. *)
Definition main_sidebar : M unit :=
  st.header "Latest Output Image";;
  output_image ← get_image OUTPUT_IMAGE_KEY;
  match output_image with
  | Some output_image =>
      st.image output_image;;
      clicked ← st.button env "Use this image for inpainting and img2img"
                  None;
      if clicked : bool then
        copy ← Image_copy output_image;
        set_image LOADED_IMAGE_KEY copy;;
        st.experimental_rerun
      else mret tt
  | None => st.markdown "No output generated yet"
  end.

Definition main : M unit :=
  st.set_page_config "wide";;
  st.title "Stable Diffusion 2.0 Simple Playground";;
  st.tabs ["Text to Image (txt2img)"; "Inpainting";
           "Image to image (img2img)"; "Upscale"];;
  with_ (Tab 0) txt2img_tab;;
  with_ (Tab 1) inpainting_tab;;
  with_ (Tab 2) img2img_tab;;
  with_ (Tab 3) upscale_tab;;
  with_ Sidebar main_sidebar.
End Script.

(** ** Properties of runs: definitions *)

(** A relation between the session before a piece of the script, the
    session after it and the calls it made. *)
Definition Rel : Type := State → State → list Event → Prop.

(** [R] holds of every run of [m], wherever in a run [m] starts, also of
    the runs an exception cuts short. *)
Definition keeps {A} (R : Rel) (m : M A) : Prop :=
  ∀ log s, R s (final_at log m s) (trace_at log m s).

(** [R] holds of doing nothing and of one piece run after another. *)
Class Sequential (R : Rel) : Prop :=
  { seq_nil : ∀ s, R s s [];
    seq_app : ∀ s1 s2 s3 t1 t2,
      R s1 s2 t1 → R s2 s3 t2 → R s1 s3 (t1 ++ t2) }.

(** [R] does not look at the [with] blocks around the calls. *)
Class Scopeless (R : Rel) : Prop :=
  scopeless : ∀ c s s' t, R s s' t → R s s' (inside c <$> t).

(** What [m] does is the same wherever in a run it starts. *)
Definition log_free {A} (m : M A) : Prop :=
  ∀ log s, m log s = m [] s.

Definition actions (t : list Event) : list Action := what <$> t.

(** No call that [f] picks is made. *)
Definition quiet {B} (f : Action → option B) : Rel := λ _ _ t,
  select f t = [].

Definition count (p : Action → bool) (t : list Event) : nat :=
  length (List.filter p (actions t)).

Definition is_generate (a : Action) : bool :=
  match a with Generate _ _ => true | _ => false end.

(** A "Generate image" button that reported a click. *)
Definition is_generate_click (a : Action) : bool :=
  match a with
  | Button label _ clicked => bool_decide (label = "Generate image") && clicked
  | _ => false
  end.

(** [generate] is called as often as a "Generate image" button reported a
    click. *)
Definition balanced : Rel := λ _ _ t,
  count is_generate t = count is_generate_click t.

(** The arguments of the calls of [generate] in a log, in order. *)
Definition generate_call (a : Action) : option GenerateCall :=
  match a with Generate call _ => Some call | _ => None end.

Definition generate_calls (t : list Event) : list GenerateCall :=
  select generate_call t.

(** The images [generate] returned, in order. *)
Definition generated_image (a : Action) : option ImageObj :=
  match a with Generate _ (Some img) => Some img | _ => None end.

Definition generated (t : list Event) : list ImageObj :=
  select generated_image t.

(** The images that the calls of a log made: those PIL returned and those
    [generate] returned. *)
Definition made_image (a : Action) : option ImageObj :=
  match a with
  | Pil _ _ (Some img) | Generate _ (Some img) => Some img
  | _ => None
  end.

(** The keys of the "Generate image" buttons laid out, clicked or not. *)
Definition generate_button (a : Action) : option (option string) :=
  match a with
  | Button label key _ =>
      if bool_decide (label = "Generate image") then Some key else None
  | _ => None
  end.

(** The calls into PIL of the method of this name: the image it was called
    on and the image it returned. *)
Definition pil_call (method : string) (a : Action)
  : option (option ImageObj * option ImageObj) :=
  match a with
  | Pil m self r => if bool_decide (m = method) then Some (self, r) else None
  | _ => None
  end.

Definition pil_calls (method : string) (t : list Event)
  : list (option ImageObj * option ImageObj) :=
  select (pil_call method) t.


Definition sidebar_header (a : Action) : option unit :=
  match a with
  | Header body =>
      if bool_decide (body = "Latest Output Image") then Some tt else None
  | _ => None
  end.

Definition no_output_text (a : Action) : option unit :=
  match a with
  | Markdown body =>
      if bool_decide (body = "No output generated yet") then Some tt
      else None
  | _ => None
  end.

Section Expected.
Context (env : Env).

(** Whether the "Generate image" button of the tab with this prefix
    reports a click. *)
Definition generate_clicked (prefix : string) : bool :=
  env_button env "Generate image" (Some (prefix +:+ "-btn")).

(** The call of [generate] made of the current values of the four widgets
    that [prompt_and_generate_button] lays out under this prefix. *)
Definition widget_call (prefix pipeline_name : string)
    (kwargs : list (string * PyVal)) : GenerateCall :=
  {| g_prompt :=
       env_text_area env "Prompt" DEFAULT_PROMPT (prefix +:+ "-prompt");
     g_pipeline_name := pipeline_name;
     g_negative_prompt :=
       env_text_area env "Negative prompt" ""
         (prefix +:+ "-negative-prompt");
     g_steps :=
       env_slider_int env "Number of inference steps"
         {| min_value := 1; max_value := 200; step := 1; value := 50 |}
         (prefix +:+ "-steps");
     g_guidance_scale :=
       env_slider_float env "Guidance scale"
         {| min_value := Q2Qc 0; max_value := Q2Qc 20;
            step := Q2Qc (1 # 2); value := Q2Qc (15 # 2) |}
         (prefix +:+ "-guidance");
     g_kwargs := kwargs |}.

Definition expected_calls (prefix pipeline_name : string)
    (kwargs : list (string * PyVal)) : list GenerateCall :=
  if generate_clicked prefix
  then [widget_call prefix pipeline_name kwargs]
  else [].

(** The values of the two sliders of the txt2img tab. *)
Definition txt2img_width : Z :=
  env_slider_int env "Width"
    {| min_value := 64; max_value := 1024; step := 64; value := 512 |}
    "txt2img-width".

Definition txt2img_height : Z :=
  env_slider_int env "Height"
    {| min_value := 64; max_value := 1024; step := 64; value := 512 |}
    "txt2img-height".

(** What the uploader of the tab with this prefix holds. *)
Definition upload (prefix : string) : option UploadedFile :=
  env_file_uploader env "Image" ["jpg"; "png"] (prefix +:+ "-uploader").

(** The uploader holds a file that PIL decodes to [d]. *)
Definition upload_decodes (prefix : string) (d : Image.t) : Prop :=
  ∃ file, upload prefix = Some file ∧ file_image file = Some d.

(** The canvas gives this drawing, whatever it is laid out with. *)
Definition canvas_gives (drawing : list (list RGBA)) : Prop :=
  ∀ args, env_canvas env args = Some {| image_data := Some drawing |}.

(** [main] up to the block [with st.sidebar:]. *)
Definition main_tabs : M unit :=
  st.set_page_config "wide";;
  st.title "Stable Diffusion 2.0 Simple Playground";;
  st.tabs ["Text to Image (txt2img)"; "Inpainting";
           "Image to image (img2img)"; "Upscale"];;
  with_ (Tab 0) (txt2img_tab env);;
  with_ (Tab 1) (inpainting_tab env);;
  with_ (Tab 2) (img2img_tab env);;
  with_ (Tab 3) (upscale_tab env).
End Expected.

(** How often [generate] is called for the button of this prefix once the
    button is laid out. *)
Definition clicks (env : Env) (prefix : string) : nat :=
  if generate_clicked env prefix then 1 else 0.

(** The values of the five widgets of [prompt_and_generate_button], as the
    session holds them once the widgets are laid out. *)
Definition button_widgets (env : Env) (prefix : string)
    (widgets : gmap string WidgetValue) : gmap string WidgetValue :=
  let call := widget_call env prefix "" [] in
  <[prefix +:+ "-btn" := BoolValue (generate_clicked env prefix)]>
    (<[prefix +:+ "-guidance" := FloatValue (g_guidance_scale call)]>
       (<[prefix +:+ "-steps" := IntValue (g_steps call)]>
          (<[prefix +:+ "-negative-prompt" :=
               TextValue (g_negative_prompt call)]>
             (<[prefix +:+ "-prompt" := TextValue (g_prompt call)]>
                widgets)))).

(** A size [Image.resize] accepts. *)
Definition resize_accepts (n : Z) : Prop := 0 < n ≤ INT_MAX.

(** The exception [Image.resize] raises for a size it does not accept. *)
Definition size_error (width height : Z) : option Exn :=
  if negb (fits_int width && fits_int height) then Some OverflowError
  else if (width <? 1) || (height <? 1) then Some ValueError
  else None.

(** The contents of the image that [Image.resize] makes of [d]. *)
Definition resized_to (width height : Z) (d : Image.t) : Image.t :=
  {| Image.width := width; Image.height := height;
     Image.pixels :=
       Resampled (Image.width d) (Image.height d) (Image.pixels d) |}.

(** The contents of the mask that [inpainting] makes of a drawing. *)
Definition mask_of (drawing : list (list RGBA)) : Image.t :=
  {| Image.width :=
       Z.of_nat (length (default [] (head (alpha_positive drawing))));
     Image.height := Z.of_nat (length (alpha_positive drawing));
     Image.pixels := Bilevel (alpha_positive drawing) |}.

(** ** Statements about the calls of [generate] *)

(** Every call of [generate] of the log satisfies [P]. *)
Definition calls_all (P : GenerateCall → Prop) : Rel := λ _ _ t,
  Forall P (generate_calls t).

(** The pipeline of each tab, by the position of the tab in
    [st.tabs([...])]. *)
Definition tab_pipeline (i : nat) : option string :=
  ["txt2img"; "inpaint"; "img2img"; "upscale"] !! i.

(** A call of [generate] is made inside a tab and names the pipeline of
    that tab. *)
Definition from_its_tab (e : Event) : Prop :=
  ∀ call, generate_call (what e) = Some call →
    ∃ i, head (scope e) = Some (Tab i)
         ∧ tab_pipeline i = Some (g_pipeline_name call).

Definition in_tabs : Rel := λ _ _ t, Forall from_its_tab t.

(** Some pixel of the drawing has a positive alpha value. *)
Definition has_positive_alpha (drawing : list (list RGBA)) : Prop :=
  Exists (Exists (λ px, 0 < alpha px)) drawing.

(** ** Statements about the output image *)

(** [s] ends in [suffix]; no widget key of the script ends as an image key
    does. *)
Fixpoint ends_with (suffix s : string) : bool :=
  bool_decide (s = suffix)
  || match s with
     | String _ s' => ends_with suffix s'
     | EmptyString => false
     end.


(** No widget of the log has one of the two keys under which the script
    stores images. *)
Definition unprotected (log : list Event) : Prop :=
  (OUTPUT_IMAGE_KEY ∉ select widget_key log)
  ∧ (LOADED_IMAGE_KEY ∉ select widget_key log).

(** Started after a log without a widget under an image key, [m] keeps
    [R], lays out no widget under an image key, and Streamlit refuses none
    of its assignments to the session. *)
Definition stores {A} (R : Rel) (m : M A) : Prop :=
  ∀ log s, unprotected log →
    R s (final_at log m s) (trace_at log m s)
    ∧ unprotected (trace_at log m s)
    ∧ outcome_at log m s ≠ Raise StreamlitAPIException.

(** The relation that holds of every run: [stores anything m] says that
    Streamlit refuses no assignment of [m]. *)
Definition anything : Rel := λ _ _ _, True.

(** The session holds under the output-image key an image with the contents
    of the last image [generate] returned, or what it held before when
    [generate] returned none. *)
Definition stored_last : Rel := λ s s' t,
  data <$> session_state s' !! OUTPUT_IMAGE_KEY
  = match last (generated t) with
    | Some g => Some (data g)
    | None => data <$> session_state s !! OUTPUT_IMAGE_KEY
    end.

(** Every image [generate] returned is shown with [st.image]. *)
Definition rendered : Rel := λ _ _ t,
  ∀ g, g ∈ generated t → ShowImage g ∈ actions t.

(** What the sidebar shows in a log [t] that ends in the session [s']: if
    the run did not get to the sidebar, the text is not shown; if it did,
    the sidebar shows the image the session holds under the output-image key
    and not the text, or the text when the session holds none. *)
Definition sidebar_shows (s' : State) (t : list Event) : Prop :=
  match select sidebar_header t with
  | [] => select no_output_text t = []
  | _ =>
      match session_state s' !! OUTPUT_IMAGE_KEY with
      | Some c =>
          {| scope := [Sidebar]; what := ShowImage c |} ∈ t
          ∧ select no_output_text t = []
      | None => select no_output_text t = [tt]
      end
  end.

(** A width or height the sliders of the txt2img tab can give. *)
Definition size_in_range (n : Z) : Prop := 64 ≤ n ≤ 1024 ∧ (64 | n).

Definition call_in_range (call : GenerateCall) : Prop :=
  1 ≤ g_steps call ≤ 200
  ∧ (Q2Qc 0 ≤ g_guidance_scale call ≤ Q2Qc 20)%Qc
  ∧ ∀ k v, (k, v) ∈ g_kwargs call → k = "width" ∨ k = "height" →
      ∃ n, v = PyInt n ∧ size_in_range n.

(** ** An environment to run the script in

    The user has typed a prompt into the txt2img tab, has put the sliders
    where [sliders] says, has uploaded a 640x480 picture to the uploader
    with key [uploader], has drawn on the canvas what [drawing] holds and
    has clicked the button with key [clicked]; the pipeline answers with a
    768x768 picture. *)

Definition snap_int (spec : SliderSpec Z) (v : Z) : Z :=
  if (min_value spec <=? v) && (v <=? max_value spec)
     && ((v - min_value spec) mod step spec =? 0)
  then v else min_value spec.

Definition snap_float (spec : SliderSpec Qc) (v : Qc) : Qc :=
  if decide ((min_value spec ≤ v)%Qc ∧ (v ≤ max_value spec)%Qc)
  then v else min_value spec.

Definition demo_picture : Image.t :=
  {| Image.width := 640; Image.height := 480; Image.pixels := Opaque 0 |}.

Definition demo_output : Image.t :=
  {| Image.width := 768; Image.height := 768; Image.pixels := Opaque 1 |}.

(** A picture file, a text file under the name of a picture, and a picture
    file cut off after its header. *)
Definition demo_file : UploadedFile :=
  {| file_name := "cat.png";
     file_image := Some demo_picture;
     file_header := Some (640, 480) |}.

Definition text_file : UploadedFile :=
  {| file_name := "notes.png"; file_image := None; file_header := None |}.

Definition truncated_file : UploadedFile :=
  {| file_name := "half.png";
     file_image := None;
     file_header := Some (640, 480) |}.

Definition demo_env (clicked uploader : string) (sliders : string → option Z)
    (drawing : option (list (list RGBA))) : Env :=
  {| env_text_area := λ _ value key,
       if bool_decide (key = "txt2img-prompt") then "a red bicycle"
       else value;
     env_slider_int := λ _ spec key,
       snap_int spec (default (value spec) (sliders key));
     env_slider_float := λ _ spec _, snap_float spec (value spec);
     env_number_input := λ _ value _ _, value;
     env_button := λ _ key, bool_decide (key = Some clicked);
     env_file_uploader := λ _ _ key,
       if bool_decide (key = uploader) then Some demo_file else None;
     env_canvas := λ _, Some {| image_data := drawing |};
     env_generate := λ _, Some demo_output |}.

Definition no_sliders : string → option Z := λ _, None.

Definition empty_session : State :=
  {| session_state := ∅; widget_state := ∅; next_oid := 0 |}.

(** A run in which the width slider stands at 768 and the button of the
    txt2img tab is clicked. *)
Definition txt2img_run : Env :=
  demo_env "txt2img-btn" ""
    (λ key, if bool_decide (key = "txt2img-width") then Some 768 else None)
    None.

(** A run with a 640x480 picture in the uploader of the img2img tab. *)
Definition img2img_run : Env :=
  demo_env "img2img-btn" "img2img-uploader" no_sliders None.

(** A run with the same picture in the uploader and no click. *)
Definition upload_only_run : Env :=
  demo_env "" "img2img-uploader" no_sliders None.


(** A run with nothing uploaded and a click on the button of the upscale
    tab. *)
Definition upscale_run : Env := demo_env "upscale-btn" "" no_sliders None.

(** The drawing of one stroke pixel next to an untouched one. *)
Definition demo_drawing : list (list RGBA) :=
  [[ {| red := 255; green := 255; blue := 255; alpha := 255 |};
     {| red := 0; green := 0; blue := 0; alpha := 0 |} ]].

(** A run with a picture in the uploader of the inpainting tab, a drawing
    on the canvas, and a click on the button of the inpainting tab. *)
Definition inpainting_run : Env :=
  demo_env "inpaint-btn" "inpainting-uploader" no_sliders (Some demo_drawing).

(** ** Statements about the session, exceptions and widget keys *)

Definition rerun_call (a : Action) : option unit :=
  match a with ExperimentalRerun => Some tt | _ => None end.

Definition shown_image (a : Action) : option ImageObj :=
  match a with ShowImage img => Some img | _ => None end.

Definition printed (a : Action) : option string :=
  match a with Print line => Some line | _ => None end.

(** The line [image_uploader] prints for an image of this size. *)
Definition size_line (width height : Z) : string :=
  "loaded input image of size (" +:+ pretty width +:+ ", "
  +:+ pretty height +:+ ")".

(** Images are written only under the output-image key and the
    loaded-image key. *)
Definition touches_only : Rel := λ s s' _,
  ∀ k, k ≠ OUTPUT_IMAGE_KEY → k ≠ LOADED_IMAGE_KEY →
    session_state s' !! k = session_state s !! k.

(** The output image is the same object as before unless [generate]
    returned an image. *)
Definition output_kept : Rel := λ s s' t,
  generated t = [] →
  session_state s' !! OUTPUT_IMAGE_KEY = session_state s !! OUTPUT_IMAGE_KEY.

(** The loaded image is the same object as before unless
    [st.experimental_rerun] was called. *)
Definition loaded_kept : Rel := λ s s' t,
  select rerun_call t = [] →
  session_state s' !! LOADED_IMAGE_KEY = session_state s !! LOADED_IMAGE_KEY.

(** No image is removed from the session. *)
Definition never_forgets : Rel := λ s s' _,
  ∀ k, is_Some (session_state s !! k) → is_Some (session_state s' !! k).

(** The session holds a widget's value under the key of every keyed widget
    of the log, and the values of the other widgets are as before. *)
Definition registers : Rel := λ s s' t,
  ∀ k, if bool_decide (k ∈ select widget_key t)
       then is_Some (widget_state s' !! k)
       else widget_state s' !! k = widget_state s !! k.

(** The session holds the same images under the same keys as before. *)
Definition images_same : Rel := λ s s' _,
  session_state s' = session_state s.

(** Every exception [m] can end in satisfies [P], wherever in a run [m]
    starts. *)
Definition raises_only {A} (P : Exn → Prop) (m : M A) : Prop :=
  ∀ log s e, outcome_at log m s = Raise e → P e.


(** No call of the log is made directly in the sidebar. *)
Definition outside_sidebar : Rel := λ _ _ t,
  Forall (λ e, scope e ≠ [Sidebar]) t.

(** The widget keys of the log are among [keys], in that order, each at
    most as often as in [keys]. *)
Definition within (keys : list string) : Rel := λ _ _ t,
  select widget_key t `sublist_of` keys.

(** The keys [prompt_and_generate_button] gives its widgets. *)
Definition button_keys (prefix : string) : list string :=
  [prefix +:+ "-prompt"; prefix +:+ "-negative-prompt"; prefix +:+ "-steps";
   prefix +:+ "-guidance"; prefix +:+ "-btn"].

(** All widget keys of the script, in the order of [main]. *)
Definition main_keys : list string :=
  ["txt2img-width"; "txt2img-height"] ++ button_keys "txt2img"
  ++ ["inpainting-uploader"; "inpainting"] ++ button_keys "inpaint"
  ++ ["img2img-uploader"] ++ button_keys "img2img"
  ++ ["upscale-uploader"] ++ button_keys "upscale".

Definition canvas_call (a : Action) : option CanvasArgs :=
  match a with Canvas args => Some args | _ => None end.

(** The canvas is as large as the image behind it. *)
Definition canvas_fits (args : CanvasArgs) : Prop :=
  canvas_width args = img_width (background_image args)
  ∧ canvas_height args = img_height (background_image args).

(** A session in which a 768x768 output image is stored. *)
Definition output_session : State :=
  {| session_state :=
       {[ OUTPUT_IMAGE_KEY := {| oid := 3; data := demo_output |} ]};
     widget_state := ∅;
     next_oid := 4 |}.

(** A run in which nothing is uploaded, the widgets hold their defaults
    and the buttons in [clicked] report a click; [pipeline] is what the
    pipeline answers. *)
Definition plain_env (clicked : string → option string → bool)
    (uploads : string → option UploadedFile) (pipeline : option Image.t)
  : Env :=
  {| env_text_area := λ _ value _, value;
     env_slider_int := λ _ spec _, value spec;
     env_slider_float := λ _ spec _, value spec;
     env_number_input := λ _ value _ _, value;
     env_button := clicked;
     env_file_uploader := λ _ _ key, uploads key;
     env_canvas := λ _, None;
     env_generate := λ _, pipeline |}.

(** A run with an output image in the session and a click on the sidebar's
    button. *)
Definition use_output_run : Env :=
  plain_env
    (λ label _,
       bool_decide (label = "Use this image for inpainting and img2img"))
    (λ _, None) (Some demo_output).

(** A run in which the pipeline fails after a click in the txt2img tab. *)
Definition failing_run : Env :=
  plain_env (λ _ key, bool_decide (key = Some "txt2img-btn")) (λ _, None)
    None.

(** A run with a file that is no image in the uploader of the img2img
    tab. *)
Definition unreadable_run : Env :=
  plain_env (λ _ _, false)
    (λ key, if bool_decide (key = "img2img-uploader") then Some text_file
            else None)
    (Some demo_output).

(** A run with a picture cut off after its header in the uploader of the
    img2img tab. *)
Definition truncated_run : Env :=
  plain_env (λ _ _, false)
    (λ key, if bool_decide (key = "img2img-uploader")
            then Some truncated_file else None)
    (Some demo_output).

(** A run with a click on the button of the txt2img tab and a file that is
    no image in the uploader of the img2img tab. *)
Definition interrupted_run : Env :=
  plain_env (λ _ key, bool_decide (key = Some "txt2img-btn"))
    (λ key, if bool_decide (key = "img2img-uploader") then Some text_file
            else None)
    (Some demo_output).

(** Everything that [f] picks from the log satisfies [P]. *)
Definition all_selected {B} (f : Action → option B) (P : B → Prop) : Rel :=
  λ _ _ t, Forall P (select f t).

(** ** Running a sequence *)

Lemma run_bind {A B} (m : M A) (f : A → M B) log s :
  (m ≫= f) log s =
  match m log s with
  | (Ok a, s1, t1) =>
      let '(r, s2, t2) := f a (log ++ t1) s1 in (r, s2, t1 ++ t2)
  | (Raise e, s1, t1) => (Raise e, s1, t1)
  end.
Proof. reflexivity. Qed.

Lemma run_with {A} c (m : M A) log s :
  with_ c m log s
  = (outcome_at log m s, final_at log m s, inside c <$> trace_at log m s).
Proof.
  unfold with_, outcome_at, final_at, trace_at.
  destruct (m log s) as [[r s'] t]. reflexivity.
Qed.

Lemma outcome_at_bind {A B} (m : M A) (f : A → M B) log s :
  outcome_at log (m ≫= f) s =
  match outcome_at log m s with
  | Ok a => outcome_at (log ++ trace_at log m s) (f a) (final_at log m s)
  | Raise e => Raise e
  end.
Proof.
  unfold outcome_at, final_at, trace_at. rewrite run_bind.
  destruct (m log s) as [[[a|e] s1] t1]; simpl; [|reflexivity].
  destruct (f a (log ++ t1) s1) as [[r s2] t2]. reflexivity.
Qed.

Lemma final_at_bind {A B} (m : M A) (f : A → M B) log s :
  final_at log (m ≫= f) s =
  match outcome_at log m s with
  | Ok a => final_at (log ++ trace_at log m s) (f a) (final_at log m s)
  | Raise e => final_at log m s
  end.
Proof.
  unfold outcome_at, final_at, trace_at. rewrite run_bind.
  destruct (m log s) as [[[a|e] s1] t1]; simpl; [|reflexivity].
  destruct (f a (log ++ t1) s1) as [[r s2] t2]. reflexivity.
Qed.

Lemma trace_at_bind {A B} (m : M A) (f : A → M B) log s :
  trace_at log (m ≫= f) s =
  match outcome_at log m s with
  | Ok a =>
      trace_at log m s
      ++ trace_at (log ++ trace_at log m s) (f a) (final_at log m s)
  | Raise e => trace_at log m s
  end.
Proof.
  unfold outcome_at, final_at, trace_at. rewrite run_bind.
  destruct (m log s) as [[[a|e] s1] t1]; simpl; [|reflexivity].
  destruct (f a (log ++ t1) s1) as [[r s2] t2]. reflexivity.
Qed.

Lemma outcome_bind {A B} (m : M A) (f : A → M B) s :
  outcome (m ≫= f) s =
  match outcome m s with
  | Ok a => outcome_at (trace m s) (f a) (final m s)
  | Raise e => Raise e
  end.
Proof. exact (outcome_at_bind m f [] s). Qed.

Lemma final_bind {A B} (m : M A) (f : A → M B) s :
  final (m ≫= f) s =
  match outcome m s with
  | Ok a => final_at (trace m s) (f a) (final m s)
  | Raise e => final m s
  end.
Proof. exact (final_at_bind m f [] s). Qed.


Lemma outcome_at_with {A} c (m : M A) log s :
  outcome_at log (with_ c m) s = outcome_at log m s.
Proof. unfold outcome_at at 1. rewrite run_with. reflexivity. Qed.

Lemma final_at_with {A} c (m : M A) log s :
  final_at log (with_ c m) s = final_at log m s.
Proof. unfold final_at at 1. rewrite run_with. reflexivity. Qed.

Lemma trace_at_with {A} c (m : M A) log s :
  trace_at log (with_ c m) s = inside c <$> trace_at log m s.
Proof. unfold trace_at at 1. rewrite run_with. reflexivity. Qed.

Lemma bind_assoc {A B C} (m : M A) (f : A → M B) (g : B → M C) log s :
  ((m ≫= f) ≫= g) log s = (m ≫= λ a, f a ≫= g) log s.
Proof.
  rewrite !run_bind. destruct (m log s) as [[[a|e] s1] t1]; [|reflexivity].
  rewrite run_bind.
  destruct (f a (log ++ t1) s1) as [[[b|e] s2] t2]; [|reflexivity].
  rewrite <- (app_assoc log t1 t2).
  destruct (g b (log ++ t1 ++ t2) s2) as [[r s3] t3]. by rewrite app_assoc.
Qed.

Lemma bind_ext {A B} (m : M A) (f g : A → M B) log s :
  (∀ a log' s', f a log' s' = g a log' s') → (m ≫= f) log s = (m ≫= g) log s.
Proof.
  intros H. rewrite !run_bind.
  destruct (m log s) as [[[a|e] s1] t1]; [|done]. by rewrite H.
Qed.

(** ** Selections and counts of a log *)

Lemma actions_app t1 t2 : actions (t1 ++ t2) = actions t1 ++ actions t2.
Proof. apply fmap_app. Qed.

Lemma actions_inside c t : actions (inside c <$> t) = actions t.
Proof. unfold actions. rewrite <- list_fmap_compose. reflexivity. Qed.

Lemma select_app {B} (f : Action → option B) t1 t2 :
  select f (t1 ++ t2) = select f t1 ++ select f t2.
Proof. apply omap_app. Qed.

Lemma select_inside {B} (f : Action → option B) c t :
  select f (inside c <$> t) = select f t.
Proof.
  unfold select. induction t as [|e t IH]; [reflexivity|].
  csimpl. rewrite IH. reflexivity.
Qed.


Lemma count_app p t1 t2 : count p (t1 ++ t2) = (count p t1 + count p t2)%nat.
Proof.
  unfold count. rewrite actions_app, List.filter_app, length_app. reflexivity.
Qed.

Lemma count_inside p c t : count p (inside c <$> t) = count p t.
Proof. unfold count. rewrite actions_inside. reflexivity. Qed.

Lemma count_generate t : count is_generate t = length (generate_calls t).
Proof.
  unfold count, generate_calls, select, actions.
  induction t as [|[sc a] t IH]; [reflexivity|].
  destruct a; csimpl; simpl; rewrite ?IH; reflexivity.
Qed.

(** ** Relations kept by every run *)

#[export] Instance quiet_sequential {B} (f : Action → option B) :
  Sequential (quiet f).
Proof.
  split; unfold quiet.
  - reflexivity.
  - intros _ _ _ t1 t2 H1 H2. by rewrite select_app, H1, H2.
Qed.

#[export] Instance quiet_scopeless {B} (f : Action → option B) :
  Scopeless (quiet f).
Proof. intros c s s' t. unfold quiet. by rewrite select_inside. Qed.

#[export] Instance balanced_sequential : Sequential balanced.
Proof.
  split; unfold balanced.
  - reflexivity.
  - intros _ _ _ t1 t2 H1 H2. rewrite !count_app. congruence.
Qed.

#[export] Instance balanced_scopeless : Scopeless balanced.
Proof. intros c s s' t. unfold balanced. rewrite !count_inside. done. Qed.

Section Keeps.
Context (R : Rel) `{!Sequential R}.

Lemma keeps_ret {A} (a : A) : keeps R (mret a).
Proof. intros log s. apply seq_nil. Qed.

Lemma keeps_raise {A} e : keeps R (@raise A e).
Proof. intros log s. apply seq_nil. Qed.

Lemma keeps_bind {A B} (m : M A) (f : A → M B) :
  keeps R m → (∀ a, keeps R (f a)) → keeps R (m ≫= f).
Proof.
  intros Hm Hf log s. rewrite final_at_bind, trace_at_bind.
  destruct (outcome_at log m s) as [a|e]; [|apply Hm].
  eapply seq_app; [apply Hm|apply Hf].
Qed.

Lemma keeps_get_image key : keeps R (get_image key).
Proof. intros log s. apply seq_nil. Qed.

(** Whether Streamlit refuses the assignment or not. *)
Lemma keeps_set_image key img :
  (∀ s, R s (store key img s) []) → keeps R (set_image key img).
Proof.
  intros H log s. unfold final_at, trace_at, set_image.
  destruct (bool_decide _); simpl; [apply seq_nil|apply H].
Qed.
End Keeps.

Lemma keeps_with_to {A} (R R' : Rel) c (m : M A) :
  (∀ s s' t, R' s s' t → R s s' (inside c <$> t)) →
  keeps R' m → keeps R (with_ c m).
Proof.
  intros HR Hm log s. rewrite final_at_with, trace_at_with. apply HR, Hm.
Qed.

Lemma keeps_with {A} (R : Rel) `{!Scopeless R} c (m : M A) :
  keeps R m → keeps R (with_ c m).
Proof. apply keeps_with_to. intros s s' t. apply scopeless. Qed.

Lemma keeps_emit (R : Rel) a :
  (∀ s, R s s [ {| scope := []; what := a |} ]) → keeps R (emit a).
Proof. intros H log s. apply H. Qed.

Lemma keeps_new_image (R : Rel) d :
  (∀ s, R s (allocated s) []) → keeps R (new_image d).
Proof. intros H log s. apply H. Qed.

Lemma keeps_register (R : Rel) key v :
  (∀ s, R s (set_widget key v s) []) → keeps R (register key v).
Proof. intros H log s. apply H. Qed.

Lemma keeps_weaken {A} (R R' : Rel) (m : M A) :
  (∀ s s' t, R' s s' t → R s s' t) → keeps R' m → keeps R m.
Proof. intros H Hm log s. apply H, Hm. Qed.

(** One step into the script: the definition of the function at the head
    of the goal. *)
Ltac unfold_script :=
  first
    [ progress cbv beta iota zeta
    | progress unfold
        st.set_page_config, st.title, st.header, st.markdown, st.image,
        st.tabs, st.columns, st.text_area, st.slider_int,
        st.slider_float, st.number_input, st.button, st.file_uploader,
        st.st_canvas, st.experimental_rerun, print, Image_open,
        Image_resize, Image_copy, Image_fromarray, generate,
        prompt_and_generate_button, width_and_height_sliders,
        image_uploader, inpainting, txt2img_tab, inpainting_tab,
        img2img_tab, upscale_tab, main_sidebar, main_tabs, main ].

(** Breaks a goal [keeps R m] down along the structure of [m].  [known] is
    tried first, for the functions a lemma is at hand for; [leaf] has to
    solve the goals about single calls. *)
Ltac keeps_step known leaf :=
  first
  [ progress known
  | lazymatch goal with
    | |- keeps _ (mret _) => apply keeps_ret; apply _
    | |- keeps _ (raise _) => apply keeps_raise; apply _
    | |- keeps _ (get_image _) => apply keeps_get_image; apply _
    | |- keeps _ (mbind _ _) => apply keeps_bind; [apply _| |intros ?]
    | |- keeps _ (with_ _ _) => apply keeps_with; [apply _|]
    | |- keeps _ (emit _) => apply keeps_emit; intros ?; leaf
    | |- keeps _ (new_image _) => apply keeps_new_image; intros ?; leaf
    | |- keeps _ (register _ _) => apply keeps_register; intros ?; leaf
    | |- keeps _ (set_image _ _) =>
        apply keeps_set_image; [apply _|intros ?; leaf]
    | |- keeps _ (match ?x with _ => _ end) => destruct x
    | |- keeps _ _ => unfold_script
    end ].

Ltac keeps_all known leaf := repeat keeps_step known leaf.

(** Runs a piece of the script symbolically, as far as the answers of the
    environment are not needed. *)
Ltac run :=
  cbv beta iota zeta delta
    [ outcome final trace outcome_at final_at trace_at fst snd image_data
      opened decodable
      mbind mret M_bind M_ret bind ret raise emit with_ new_image register
      st.set_page_config st.title st.header st.markdown st.image
      st.tabs st.columns st.text_area st.slider_int st.slider_float
      st.number_input st.button st.file_uploader st.st_canvas
      st.experimental_rerun print Image_open Image_copy
      Image_fromarray generate get_image
      prompt_and_generate_button width_and_height_sliders
      image_uploader inpainting txt2img_tab inpainting_tab
      img2img_tab upscale_tab main_sidebar main_tabs main ].

(** The projections of a session after the script has written to it. *)
Ltac session :=
  cbn [session_state widget_state next_oid store set_widget allocated].

Ltac quiet_leaf := reflexivity.

(** ** Pieces that do not look at the log *)

Lemma log_free_ret {A} (a : A) : log_free (mret a).
Proof. done. Qed.

Lemma log_free_raise {A} e : log_free (@raise A e).
Proof. done. Qed.

Lemma log_free_emit a : log_free (emit a).
Proof. done. Qed.

Lemma log_free_new_image d : log_free (new_image d).
Proof. done. Qed.

Lemma log_free_register key v : log_free (register key v).
Proof. done. Qed.

Lemma log_free_get_image key : log_free (get_image key).
Proof. done. Qed.

Lemma log_free_bind {A B} (m : M A) (f : A → M B) :
  log_free m → (∀ a, log_free (f a)) → log_free (m ≫= f).
Proof.
  intros Hm Hf log s. rewrite !run_bind, Hm.
  destruct (m [] s) as [[[a|e] s1] t1]; [|reflexivity].
  by rewrite Hf, (Hf a ([] ++ t1)).
Qed.

Lemma log_free_with {A} c (m : M A) : log_free m → log_free (with_ c m).
Proof. intros Hm log s. unfold with_. by rewrite Hm. Qed.

Ltac log_free_step :=
  lazymatch goal with
  | |- log_free (mret _) => apply log_free_ret
  | |- log_free (raise _) => apply log_free_raise
  | |- log_free (emit _) => apply log_free_emit
  | |- log_free (new_image _) => apply log_free_new_image
  | |- log_free (register _ _) => apply log_free_register
  | |- log_free (get_image _) => apply log_free_get_image
  | |- log_free (mbind _ _) => apply log_free_bind; [|intros ?]
  | |- log_free (with_ _ _) => apply log_free_with
  | |- log_free (match ?x with _ => _ end) => destruct x
  | |- log_free _ => unfold_script
  end.

Ltac log_free_all := repeat log_free_step.

Lemma outcome_log_free {A} (m : M A) log s :
  log_free m → outcome_at log m s = outcome m s.
Proof. intros H. unfold outcome, outcome_at. by rewrite H. Qed.

Lemma final_log_free {A} (m : M A) log s :
  log_free m → final_at log m s = final m s.
Proof. intros H. unfold final, final_at. by rewrite H. Qed.

Lemma trace_log_free {A} (m : M A) log s :
  log_free m → trace_at log m s = trace m s.
Proof. intros H. unfold trace, trace_at. by rewrite H. Qed.

Section LogFree.
Context (env : Env).

Lemma image_uploader_log_free prefix width height :
  log_free (image_uploader env prefix width height).
Proof. log_free_all. Qed.

Lemma inpainting_log_free : log_free (inpainting env).
Proof. log_free_all. Qed.

Lemma width_and_height_sliders_log_free prefix :
  log_free (width_and_height_sliders env prefix).
Proof. log_free_all. Qed.
End LogFree.

(** ** The keys of the widgets and the keys of the images *)

Lemma ends_with_refl suffix : ends_with suffix suffix = true.
Proof.
  destruct suffix; cbn [ends_with]; by rewrite bool_decide_eq_true_2.
Qed.

Lemma ends_with_app prefix suffix : ends_with suffix (prefix +:+ suffix) = true.
Proof.
  induction prefix as [|a prefix IH].
  - apply ends_with_refl.
  - change (ends_with suffix (String a (prefix +:+ suffix)) = true).
    cbn [ends_with]. rewrite IH. apply orb_true_r.
Qed.

(** A key with a suffix that an image key does not end in is not that
    image key. *)
Lemma suffixed_key_differs prefix suffix key :
  ends_with suffix key = false → key ≠ prefix +:+ suffix.
Proof. intros H ->. by rewrite ends_with_app in H. Qed.

Ltac key_differs :=
  first [ discriminate | by apply suffixed_key_differs ].

Lemma unprotected_nil : unprotected [].
Proof. split; apply not_elem_of_nil. Qed.

Lemma unprotected_app t1 t2 :
  unprotected t1 → unprotected t2 → unprotected (t1 ++ t2).
Proof.
  unfold unprotected. rewrite select_app, !not_elem_of_app. tauto.
Qed.

Lemma unprotected_inside c t : unprotected t → unprotected (inside c <$> t).
Proof. unfold unprotected. by rewrite select_inside. Qed.

Lemma unprotected_keys t keys :
  select widget_key t `sublist_of` keys →
  OUTPUT_IMAGE_KEY ∉ keys → LOADED_IMAGE_KEY ∉ keys → unprotected t.
Proof.
  intros Hsub Ho Hl.
  split; intros Hin; [apply Ho|apply Hl];
    by eapply elem_of_sublist.
Qed.

(** The log of one call. *)
Ltac unprotected_leaf :=
  split; cbn;
  repeat first
    [ apply not_elem_of_nil
    | apply not_elem_of_cons; split; [key_differs|] ].

Lemma set_image_unprotected key img log s :
  key ∉ select widget_key log →
  set_image key img log s = (Ok tt, store key img s, []).
Proof. intros H. unfold set_image. by rewrite bool_decide_eq_false_2. Qed.

Lemma set_image_after key img log t s :
  key ∉ select widget_key log → key ∉ select widget_key t →
  set_image key img (log ++ t) s = (Ok tt, store key img s, []).
Proof.
  intros Hlog Ht. apply set_image_unprotected.
  rewrite select_app. by apply not_elem_of_app.
Qed.


(** ** Runs in which Streamlit refuses no assignment *)

Section Stores.
Context (R : Rel) `{!Sequential R}.

Lemma stores_ret {A} (a : A) : stores R (mret a).
Proof.
  intros log s _. split; [apply seq_nil|]. split; [apply unprotected_nil|done].
Qed.

Lemma stores_raise {A} e : e ≠ StreamlitAPIException → stores R (@raise A e).
Proof.
  intros He log s _. split; [apply seq_nil|].
  split; [apply unprotected_nil|]. intros [= Heq]. by apply He.
Qed.

Lemma stores_get_image key : stores R (get_image key).
Proof.
  intros log s _. split; [apply seq_nil|]. split; [apply unprotected_nil|done].
Qed.

Lemma stores_bind {A B} (m : M A) (f : A → M B) :
  stores R m → (∀ a, stores R (f a)) → stores R (m ≫= f).
Proof.
  intros Hm Hf log s Hlog.
  rewrite outcome_at_bind, final_at_bind, trace_at_bind.
  destruct (Hm log s Hlog) as (HR & Ht & Ho).
  destruct (outcome_at log m s) as [a|e].
  2: { split; [done|]. split; [done|]. intros [= ->]. by apply Ho. }
  destruct (Hf a (log ++ trace_at log m s) (final_at log m s))
    as (HR' & Ht' & Ho'); [by apply unprotected_app|].
  split; [by eapply seq_app|]. split; [by apply unprotected_app|done].
Qed.
End Stores.

Lemma stores_with {A} (R : Rel) `{!Scopeless R} c (m : M A) :
  stores R m → stores R (with_ c m).
Proof.
  intros Hm log s Hlog. destruct (Hm log s Hlog) as (HR & Ht & Ho).
  rewrite outcome_at_with, final_at_with, trace_at_with.
  split; [by apply scopeless|]. split; [by apply unprotected_inside|done].
Qed.

Lemma stores_emit (R : Rel) a :
  unprotected [ {| scope := []; what := a |} ] →
  (∀ s, R s s [ {| scope := []; what := a |} ]) → stores R (emit a).
Proof. intros Ha H log s _. split; [apply H|]. by split. Qed.

Lemma stores_new_image (R : Rel) d :
  (∀ s, R s (allocated s) []) → stores R (new_image d).
Proof.
  intros H log s _. split; [apply H|]. split; [apply unprotected_nil|done].
Qed.

Lemma stores_register (R : Rel) key v :
  (∀ s, R s (set_widget key v s) []) → stores R (register key v).
Proof.
  intros H log s _. split; [apply H|]. split; [apply unprotected_nil|done].
Qed.

Lemma stores_set_image (R : Rel) key img :
  key = OUTPUT_IMAGE_KEY ∨ key = LOADED_IMAGE_KEY →
  (∀ s, R s (store key img s) []) → stores R (set_image key img).
Proof.
  intros Hkey H log s [Ho Hl].
  unfold outcome_at, final_at, trace_at.
  rewrite set_image_unprotected by (by destruct Hkey as [->| ->]).
  split; [apply H|]. split; [apply unprotected_nil|done].
Qed.

Lemma stores_weaken {A} (R R' : Rel) (m : M A) :
  (∀ s s' t, R' s s' t → R s s' t) → stores R' m → stores R m.
Proof.
  intros H Hm log s Hlog. destruct (Hm log s Hlog) as (HR & Ht & Ho).
  split; [by apply H|]. by split.
Qed.

(** Breaks a goal [stores R m] down along the structure of [m], as
    [keeps_step] does for [keeps R m]. *)
Ltac stores_step known leaf :=
  first
  [ progress known
  | lazymatch goal with
    | |- stores _ (mret _) => apply stores_ret; apply _
    | |- stores _ (raise _) => apply stores_raise; [apply _|discriminate]
    | |- stores _ (get_image _) => apply stores_get_image; apply _
    | |- stores _ (mbind _ _) => apply stores_bind; [apply _| |intros ?]
    | |- stores _ (with_ _ _) => apply stores_with; [apply _|]
    | |- stores _ (emit _) =>
        apply stores_emit; [unprotected_leaf|intros ?; leaf]
    | |- stores _ (new_image _) => apply stores_new_image; intros ?; leaf
    | |- stores _ (register _ _) => apply stores_register; intros ?; leaf
    | |- stores _ (set_image _ _) =>
        apply stores_set_image; [by (left + right)|intros ?; leaf]
    | |- stores _ (match ?x with _ => _ end) => destruct x
    | |- stores _ _ => unfold_script
    end ].

Ltac stores_all known leaf := repeat stores_step known leaf.

(** ** Session storage *)

Lemma outcome_get_image key log s :
  outcome_at log (get_image key) s = Ok (session_state s !! key).
Proof.
  unfold outcome_at, get_image. simpl.
  destruct (session_state s !! key); reflexivity.
Qed.


Example set_image_under_prompt_key :
  outcome (txt2img_tab txt2img_run;;
           set_image "txt2img-prompt" {| oid := 9; data := demo_output |};;
           get_image "txt2img-prompt") empty_session
  = Raise StreamlitAPIException.
Proof. vm_compute. reflexivity. Qed.



(** C7: storing an image under key k, wherever in a run, leaves what the
    session holds under every other key k' as it was, an image, the value of
    a widget or nothing, and get_image(k') returns the same before and
    after. *)
Theorem set_image_frame (log : list Event) (k k' : string) (v : ImageObj)
    (s : State) :
  k ≠ k' →
  session_state (final_at log (set_image k v) s) !! k'
  = session_state s !! k'
  ∧ widget_state (final_at log (set_image k v) s) !! k'
    = widget_state s !! k'
  ∧ ∀ log', outcome_at log' (get_image k') (final_at log (set_image k v) s)
            = outcome_at log' (get_image k') s.
Proof.
  intros Hne.
  assert (H : session_state (final_at log (set_image k v) s) !! k'
              = session_state s !! k').
  { unfold final_at, set_image. destruct (bool_decide _); simpl; [done|].
    by apply lookup_insert_ne. }
  split; [exact H|]. split.
  - unfold final_at, set_image. by destruct (bool_decide _).
  - intros log'. by rewrite !outcome_get_image, H.
Qed.

Lemma set_image_frame_witness :
  OUTPUT_IMAGE_KEY ≠ LOADED_IMAGE_KEY
  ∧ session_state
      (final (set_image OUTPUT_IMAGE_KEY {| oid := 0; data := demo_output |})
         empty_session) !! LOADED_IMAGE_KEY
    = session_state empty_session !! LOADED_IMAGE_KEY.
Proof.
  assert (H : OUTPUT_IMAGE_KEY ≠ LOADED_IMAGE_KEY) by discriminate.
  split; [exact H|].
  apply (set_image_frame [] OUTPUT_IMAGE_KEY LOADED_IMAGE_KEY
           {| oid := 0; data := demo_output |} empty_session H).
Defined.

(** ** Opening and resizing an upload *)

Lemma resize_accepts_fits n : resize_accepts n → fits_int n = true.
Proof.
  unfold resize_accepts, fits_int, INT_MIN, INT_MAX. intros H.
  apply andb_true_intro. split; apply Z.leb_le; lia.
Qed.

Lemma resize_accepts_512 : resize_accepts 512.
Proof. unfold resize_accepts, INT_MAX. lia. Qed.

Lemma resize_accepts_256 : resize_accepts 256.
Proof. unfold resize_accepts, INT_MAX. lia. Qed.

Lemma Image_resize_accepts img width height log s :
  decodable img = true → resize_accepts width → resize_accepts height →
  Image_resize img width height log s
  = (Ok {| oid := next_oid s;
           data := resized_to width height (data (opened img)) |},
     allocated s,
     [ {| scope := [];
          what := Pil "resize" (Some (opened img))
                    (Some {| oid := next_oid s;
                             data := resized_to width height
                                       (data (opened img)) |}) |} ]).
Proof.
  intros Hd Hw Hh. unfold Image_resize.
  rewrite Hd, !resize_accepts_fits by done.
  destruct Hw as [Hw _], Hh as [Hh _].
  rewrite (proj2 (Z.ltb_ge width 1)), (proj2 (Z.ltb_ge height 1)) by lia.
  reflexivity.
Qed.

Lemma Image_resize_undecodable img width height log s :
  decodable img = false →
  Image_resize img width height log s
  = (Raise OSError, s,
     [ {| scope := []; what := Pil "resize" (Some (opened img)) None |} ]).
Proof. intros Hd. unfold Image_resize. by rewrite Hd. Qed.

Lemma Image_resize_refuses img width height log s e :
  decodable img = true →
  size_error width height = Some e →
  Image_resize img width height log s
  = (Raise e, s,
     [ {| scope := []; what := Pil "resize" (Some (opened img)) None |} ]).
Proof.
  intros Hd. unfold size_error, Image_resize. rewrite Hd. simpl.
  destruct (negb (fits_int width && fits_int height)); [by intros [= <-]|].
  destruct ((width <? 1) || (height <? 1)); [by intros [= <-]|done].
Qed.


Section Uploader.
Context (env : Env) (prefix : string) (width height : Z) (s : State).

Lemma image_uploader_file file d :
  upload env prefix = Some file →
  file_image file = Some d →
  resize_accepts width → resize_accepts height →
  outcome (image_uploader env prefix width height) s
  = Ok (Some {| oid := S (next_oid s); data := resized_to width height d |})
  ∧ pil_calls "resize" (trace (image_uploader env prefix width height) s)
    = [(Some {| oid := next_oid s; data := d |},
        Some {| oid := S (next_oid s); data := resized_to width height d |})]
  ∧ session_state (final (image_uploader env prefix width height) s)
    = session_state s.
Proof.
  unfold upload. intros Hfile Hd Hw Hh. run. rewrite Hfile. run.
  rewrite Hd. run. rewrite Image_resize_accepts by done. run.
  repeat split; reflexivity.
Qed.

Lemma image_uploader_no_file :
  upload env prefix = None →
  outcome (image_uploader env prefix width height) s
  = Ok (session_state s !! LOADED_IMAGE_KEY)
  ∧ final (image_uploader env prefix width height) s
    = set_widget (prefix +:+ "-uploader") (FileValue None) s
  ∧ trace (image_uploader env prefix width height) s
    = [ {| scope := [];
           what := FileUploader "Image" (prefix +:+ "-uploader") None |} ].
Proof.
  unfold upload. intros Hfile.
  pose proof (outcome_get_image LOADED_IMAGE_KEY [] s) as Hget.
  revert Hget. run. rewrite Hfile. run. intros Hget.
  repeat split; try reflexivity. exact Hget.
Qed.

End Uploader.

(** ** What the tabs do around [prompt_and_generate_button] *)

Lemma generate_calls_app t1 t2 :
  generate_calls (t1 ++ t2) = generate_calls t1 ++ generate_calls t2.
Proof. apply select_app. Qed.

Lemma generate_calls_inside c t :
  generate_calls (inside c <$> t) = generate_calls t.
Proof. apply select_inside. Qed.

Lemma quiet_select {A B} (f : Action → option B) (m : M A) log s :
  keeps (quiet f) m → select f (trace_at log m s) = [].
Proof. intros H. apply H. Qed.

Lemma quiet_select_start {A B} (f : Action → option B) (m : M A) s :
  keeps (quiet f) m → select f (trace m s) = [].
Proof. intros H. apply H. Qed.

(** What a selection finds in the run of a tab is what it finds in the
    tab's run of [prompt_and_generate_button], as long as it picks nothing
    of what the tab does before and finds the same in
    [prompt_and_generate_button] wherever that starts. *)
Section TabSelect.
Context (env : Env) {B : Type} (f : Action → option B).
Context (F : string → string → list (string * PyVal) → list B).
Context (Hbutton : ∀ prefix pipeline_name kwargs log s,
           select f (trace_at log (prompt_and_generate_button env prefix
                                     pipeline_name kwargs) s)
           = F prefix pipeline_name kwargs).
Context (Hsliders : ∀ prefix, keeps (quiet f)
                      (width_and_height_sliders env prefix)).
Context (Huploader : ∀ prefix width height,
           keeps (quiet f) (image_uploader env prefix width height)).
Context (Hinpainting : keeps (quiet f) (inpainting env)).
Context (Hcolumns : ∀ n, f (Columns n) = None).
Context (Himage : ∀ img, f (ShowImage img) = None).

Lemma txt2img_tab_select log s :
  select f (trace_at log (txt2img_tab env) s)
  = F "txt2img" "txt2img"
      [("width", PyInt (txt2img_width env));
       ("height", PyInt (txt2img_height env))].
Proof.
  unfold txt2img_tab. rewrite trace_at_bind.
  change (outcome_at log (width_and_height_sliders env "txt2img") s)
    with (Ok (A := Z * Z) (txt2img_width env, txt2img_height env)).
  cbv beta iota. rewrite select_app, Hbutton.
  by rewrite (quiet_select f _ log s (Hsliders _)).
Qed.

Lemma columns_select {A} (m : M A) log s :
  select f (trace_at log (st.columns 2;; m) s)
  = select f
      (trace_at (log ++ [ {| scope := []; what := Columns 2 |} ]) m s).
Proof.
  rewrite trace_at_bind.
  change (outcome_at log (st.columns 2) s) with (Ok (A := unit) tt).
  change (final_at log (st.columns 2) s) with s.
  change (trace_at log (st.columns 2) s)
    with [ {| scope := []; what := Columns 2 |} ].
  cbv beta iota. rewrite select_app.
  change (select f [ {| scope := []; what := Columns 2 |} ])
    with (from_option (λ b, [b]) [] (f (Columns 2))).
  by rewrite Hcolumns.
Qed.

Lemma img2img_tab_select log s :
  select f (trace_at log (img2img_tab env) s)
  = match outcome (image_uploader env "img2img" DEFAULT_WIDTH
                     DEFAULT_HEIGHT) s with
    | Ok (Some img) => F "img2img" "img2img" [("image_input", PyImage img)]
    | _ => []
    end.
Proof.
  unfold img2img_tab. rewrite columns_select.
  set (up := image_uploader env "img2img" DEFAULT_WIDTH DEFAULT_HEIGHT).
  assert (Hfree : log_free up) by apply image_uploader_log_free.
  rewrite trace_at_bind, outcome_at_with, final_at_with, trace_at_with.
  rewrite outcome_at_bind, final_at_bind, trace_at_bind.
  rewrite (outcome_log_free up), (final_log_free up), (trace_log_free up)
    by done.
  pose proof (quiet_select_start f up s (Huploader _ _ _)) as Hup.
  destruct (outcome up s) as [[img|]|e]; cbv beta iota.
  - change (outcome_at ?l (st.image img;; mret (Some img)) ?s')
      with (Ok (Some img)).
    change (trace_at ?l (st.image img;; mret (Some img)) ?s')
      with [ {| scope := []; what := ShowImage img |} ].
    cbv beta iota.
    rewrite select_app, select_inside, select_app, Hup, trace_at_with,
      select_inside, Hbutton.
    change (select f [ {| scope := []; what := ShowImage img |} ])
      with (from_option (λ b, [b]) [] (f (ShowImage img))).
    by rewrite Himage.
  - change (outcome_at ?l (mret tt;; mret None) ?s')
      with (Ok (@None ImageObj)).
    change (trace_at ?l (mret tt;; mret (@None ImageObj)) ?s')
      with (@nil Event).
    cbv beta iota.
    by rewrite select_app, select_inside, select_app, Hup.
  - by rewrite select_inside.
Qed.

Lemma upscale_tab_select log s :
  select f (trace_at log (upscale_tab env) s)
  = match outcome (image_uploader env "upscale" 256 256) s with
    | Ok image => F "upscale" "upscale" [("image_input", py_of_image image)]
    | Raise _ => []
    end.
Proof.
  unfold upscale_tab. cbv zeta. rewrite trace_at_bind.
  rewrite (outcome_log_free (image_uploader env "upscale" 256 256)),
    (final_log_free (image_uploader env "upscale" 256 256)),
    (trace_log_free (image_uploader env "upscale" 256 256))
    by apply image_uploader_log_free.
  pose proof (quiet_select_start f _ s (Huploader "upscale" 256 256)) as Hs.
  destruct (outcome (image_uploader env "upscale" 256 256) s)
    as [image|e]; [|exact Hs].
  cbv beta iota. rewrite select_app, Hs, app_nil_l, trace_at_bind.
  destruct image as [img|].
  - change (outcome_at ?l (st.image img) ?s') with (Ok (A := unit) tt).
    cbv beta iota. rewrite select_app, Hbutton.
    change (select f (trace_at ?l (st.image img) ?s'))
      with (from_option (λ b, [b]) [] (f (ShowImage img))).
    by rewrite Himage.
  - change (outcome_at ?l (mret tt) ?s') with (Ok (A := unit) tt).
    cbv beta iota. rewrite select_app, Hbutton. reflexivity.
Qed.

Lemma inpainting_tab_select log s :
  select f (trace_at log (inpainting_tab env) s)
  = match outcome (inpainting env) s with
    | Ok (Some image, Some mask) =>
        F "inpaint" "inpaint"
          [("image_input", PyImage image); ("mask_input", PyImage mask)]
    | _ => []
    end.
Proof.
  unfold inpainting_tab. rewrite columns_select.
  rewrite trace_at_bind, outcome_at_with, final_at_with, trace_at_with.
  rewrite (outcome_log_free (inpainting env)),
    (final_log_free (inpainting env)), (trace_log_free (inpainting env))
    by apply inpainting_log_free.
  pose proof (quiet_select_start f _ s Hinpainting) as Hs.
  destruct (outcome (inpainting env) s) as [[[image|] [mask|]]|e];
    cbv beta iota; rewrite ?select_app, ?select_inside, Hs;
    rewrite ?trace_at_with, ?select_inside, ?Hbutton, ?app_nil_l;
    reflexivity.
Qed.
End TabSelect.

(** ** The calls of [generate] of each tab *)

Section Calls.
Context (env : Env).

Lemma image_uploader_quiet_generate prefix width height :
  keeps (quiet generate_call) (image_uploader env prefix width height).
Proof. keeps_all idtac quiet_leaf. Qed.

Lemma inpainting_quiet_generate : keeps (quiet generate_call) (inpainting env).
Proof. keeps_all idtac quiet_leaf. Qed.

Lemma width_and_height_sliders_quiet_generate prefix :
  keeps (quiet generate_call) (width_and_height_sliders env prefix).
Proof. keeps_all idtac quiet_leaf. Qed.

Lemma prompt_and_generate_button_calls prefix pipeline_name kwargs log s :
  generate_calls
    (trace_at log
       (prompt_and_generate_button env prefix pipeline_name kwargs) s)
  = expected_calls env prefix pipeline_name kwargs.
Proof.
  unfold expected_calls, generate_clicked, widget_call. run.
  destruct (env_button env _ _); run; [|reflexivity].
  destruct (env_generate env _); run; [|reflexivity].
  unfold set_image. destruct (bool_decide _); reflexivity.
Qed.

Lemma txt2img_tab_calls log s :
  generate_calls (trace_at log (txt2img_tab env) s)
  = expected_calls env "txt2img" "txt2img"
      [("width", PyInt (txt2img_width env));
       ("height", PyInt (txt2img_height env))].
Proof.
  unfold generate_calls.
  apply (txt2img_tab_select env generate_call (expected_calls env)).
  - apply prompt_and_generate_button_calls.
  - apply width_and_height_sliders_quiet_generate.
Qed.

Lemma img2img_tab_calls log s :
  generate_calls (trace_at log (img2img_tab env) s)
  = match outcome (image_uploader env "img2img" DEFAULT_WIDTH
                     DEFAULT_HEIGHT) s with
    | Ok (Some img) =>
        expected_calls env "img2img" "img2img" [("image_input", PyImage img)]
    | _ => []
    end.
Proof.
  unfold generate_calls.
  apply (img2img_tab_select env generate_call (expected_calls env)).
  - apply prompt_and_generate_button_calls.
  - apply image_uploader_quiet_generate.
  - reflexivity.
  - reflexivity.
Qed.

Lemma upscale_tab_calls log s :
  generate_calls (trace_at log (upscale_tab env) s)
  = match outcome (image_uploader env "upscale" 256 256) s with
    | Ok image =>
        expected_calls env "upscale" "upscale"
          [("image_input", py_of_image image)]
    | Raise _ => []
    end.
Proof.
  unfold generate_calls.
  apply (upscale_tab_select env generate_call (expected_calls env)).
  - apply prompt_and_generate_button_calls.
  - apply image_uploader_quiet_generate.
  - reflexivity.
Qed.

Lemma inpainting_tab_calls log s :
  generate_calls (trace_at log (inpainting_tab env) s)
  = match outcome (inpainting env) s with
    | Ok (Some image, Some mask) =>
        expected_calls env "inpaint" "inpaint"
          [("image_input", PyImage image); ("mask_input", PyImage mask)]
    | _ => []
    end.
Proof.
  unfold generate_calls.
  apply (inpainting_tab_select env generate_call (expected_calls env)).
  - apply prompt_and_generate_button_calls.
  - apply inpainting_quiet_generate.
  - reflexivity.
Qed.
End Calls.

(** ** Ranges *)

#[export] Instance calls_all_sequential P : Sequential (calls_all P).
Proof.
  split; unfold calls_all.
  - intros _. constructor.
  - intros _ _ _ t1 t2 H1 H2. rewrite generate_calls_app.
    by apply Forall_app.
Qed.

#[export] Instance calls_all_scopeless P : Scopeless (calls_all P).
Proof.
  intros c s s' t. unfold calls_all. by rewrite generate_calls_inside.
Qed.

Lemma quiet_calls_all {A} P (m : M A) :
  keeps (quiet generate_call) m → keeps (calls_all P) m.
Proof.
  apply keeps_weaken. intros s s' t H. unfold calls_all, generate_calls.
  rewrite H. constructor.
Qed.

Lemma expected_calls_all env P prefix pipeline_name kwargs :
  P (widget_call env prefix pipeline_name kwargs) →
  Forall P (expected_calls env prefix pipeline_name kwargs).
Proof.
  intros H. unfold expected_calls.
  destruct (generate_clicked env prefix); repeat constructor. exact H.
Qed.

Section TabCalls.
Context (env : Env) (P : GenerateCall → Prop).

Lemma txt2img_tab_calls_all :
  P (widget_call env "txt2img" "txt2img"
       [("width", PyInt (txt2img_width env));
        ("height", PyInt (txt2img_height env))]) →
  keeps (calls_all P) (txt2img_tab env).
Proof.
  intros HP log s. unfold calls_all. rewrite txt2img_tab_calls.
  apply expected_calls_all, HP.
Qed.

Lemma inpainting_tab_calls_all :
  (∀ image mask,
     P (widget_call env "inpaint" "inpaint"
          [("image_input", PyImage image); ("mask_input", PyImage mask)])) →
  keeps (calls_all P) (inpainting_tab env).
Proof.
  intros HP log s. unfold calls_all. rewrite inpainting_tab_calls.
  destruct (outcome (inpainting env) s) as [[[image|] [mask|]]|e];
    first [apply expected_calls_all, HP | constructor].
Qed.

Lemma img2img_tab_calls_all :
  (∀ img,
     P (widget_call env "img2img" "img2img" [("image_input", PyImage img)])) →
  keeps (calls_all P) (img2img_tab env).
Proof.
  intros HP log s. unfold calls_all. rewrite img2img_tab_calls.
  destruct (outcome (image_uploader env "img2img" _ _) s) as [[img|]|e];
    first [apply expected_calls_all, HP | constructor].
Qed.

Lemma upscale_tab_calls_all :
  (∀ image,
     P (widget_call env "upscale" "upscale"
          [("image_input", py_of_image image)])) →
  keeps (calls_all P) (upscale_tab env).
Proof.
  intros HP log s. unfold calls_all. rewrite upscale_tab_calls.
  destruct (outcome (image_uploader env "upscale" _ _) s) as [image|e];
    first [apply expected_calls_all, HP | constructor].
Qed.

Lemma main_sidebar_calls_all : keeps (calls_all P) (main_sidebar env).
Proof. apply quiet_calls_all. keeps_all idtac quiet_leaf. Qed.

Lemma main_calls_all :
  P (widget_call env "txt2img" "txt2img"
       [("width", PyInt (txt2img_width env));
        ("height", PyInt (txt2img_height env))]) →
  (∀ image mask,
     P (widget_call env "inpaint" "inpaint"
          [("image_input", PyImage image); ("mask_input", PyImage mask)])) →
  (∀ img,
     P (widget_call env "img2img" "img2img" [("image_input", PyImage img)])) →
  (∀ image,
     P (widget_call env "upscale" "upscale"
          [("image_input", py_of_image image)])) →
  keeps (calls_all P) (main env).
Proof.
  intros H1 H2 H3 H4.
  keeps_all
    ltac:(idtac;
          lazymatch goal with
          | |- keeps _ (txt2img_tab _) => apply txt2img_tab_calls_all, H1
          | |- keeps _ (inpainting_tab _) =>
              apply inpainting_tab_calls_all, H2
          | |- keeps _ (img2img_tab _) => apply img2img_tab_calls_all, H3
          | |- keeps _ (upscale_tab _) => apply upscale_tab_calls_all, H4
          | |- keeps _ (main_sidebar _) => apply main_sidebar_calls_all
          end)
    ltac:(constructor).
Qed.
End TabCalls.

(** C8: when the sliders keep to their bounds and steps, as Streamlit's do,
    every call of generate in a run of main has a steps value between 1 and
    200, a guidance scale between 0.0 and 20.0, and any width or height
    among its keyword arguments is an integer multiple of 64 between 64 and
    1024. *)
Theorem generate_arguments_in_range (env : Env) (s : State) :
  slider_contract env →
  Forall call_in_range (generate_calls (trace (main env) s)).
Proof.
  intros [Hint Hfloat].
  assert (Hsize : ∀ label key,
    size_in_range
      (env_slider_int env label
         {| min_value := 64; max_value := 1024; step := 64; value := 512 |}
         key)).
  { intros label key.
    destruct (Hint label
      {| min_value := 64; max_value := 1024; step := 64; value := 512 |}
      key) as [Hr [q Hq]]; simpl; [lia..|].
    simpl in *. split; [exact Hr|]. exists (q + 1). lia. }
  assert (Hcall : ∀ prefix pipeline_name kwargs,
    (∀ k v, (k, v) ∈ kwargs → k = "width" ∨ k = "height" →
       ∃ n, v = PyInt n ∧ size_in_range n) →
    call_in_range (widget_call env prefix pipeline_name kwargs)).
  { intros prefix pipeline_name kwargs Hk. split; [|split; [|exact Hk]].
    - apply (Hint _ {| min_value := 1; max_value := 200;
                       step := 1; value := 50 |}); simpl; lia.
    - apply (Hfloat _ {| min_value := Q2Qc 0; max_value := Q2Qc 20;
                         step := Q2Qc (1 # 2); value := Q2Qc (15 # 2) |}).
      simpl. by vm_compute. }
  refine (main_calls_all env call_in_range _ _ _ _ [] s).
  - apply Hcall. intros k v Hin _.
    apply elem_of_cons in Hin as [[= -> ->]|Hin];
      [eexists; split; [done|apply Hsize]|].
    apply elem_of_cons in Hin as [[= -> ->]|Hin];
      [eexists; split; [done|apply Hsize]|].
    by apply elem_of_nil in Hin.
  - intros image mask. apply Hcall. intros k v Hin Hk.
    repeat (apply elem_of_cons in Hin as [[= -> ->]|Hin];
            [by destruct Hk|]).
    by apply elem_of_nil in Hin.
  - intros img. apply Hcall. intros k v Hin Hk.
    repeat (apply elem_of_cons in Hin as [[= -> ->]|Hin];
            [by destruct Hk|]).
    by apply elem_of_nil in Hin.
  - intros image. apply Hcall. intros k v Hin Hk.
    repeat (apply elem_of_cons in Hin as [[= -> ->]|Hin];
            [by destruct Hk|]).
    by apply elem_of_nil in Hin.
Qed.

Lemma demo_env_contract clicked uploader sliders drawing :
  slider_contract (demo_env clicked uploader sliders drawing).
Proof.
  split.
  - intros label spec key Hle Hstep. simpl. unfold snap_int.
    destruct (_ && _) eqn:Htest.
    + apply andb_prop in Htest as [Htest Hmod].
      apply andb_prop in Htest as [Hlo Hhi].
      split; [lia|]. apply Z.mod_divide; lia.
    + split; [lia|]. rewrite Z.sub_diag. apply Z.divide_0_r.
  - intros label spec key Hle. simpl. unfold snap_float.
    case_decide as Htest; [exact Htest|]. split; [reflexivity|exact Hle].
Qed.

Example txt2img_run_calls :
  (λ call, (g_prompt call, g_pipeline_name call, g_steps call,
            g_kwargs call))
    <$> generate_calls (trace (main txt2img_run) empty_session)
  = [("a red bicycle", "txt2img", 50,
      [("width", PyInt 768); ("height", PyInt 512)])].
Proof. vm_compute. reflexivity. Qed.

Lemma generate_arguments_in_range_witness :
  slider_contract txt2img_run
  ∧ Forall call_in_range
      (generate_calls (trace (main txt2img_run) empty_session)).
Proof.
  split; [apply demo_env_contract|].
  apply (generate_arguments_in_range txt2img_run empty_session).
  apply demo_env_contract.
Defined.

(** ** When the generation flow runs *)

Lemma row_sum_positive (row : list RGBA) :
  (0 < length (filter (λ b, b = true)
                 (map (λ px, (0 <? alpha px)%Z) row)))%nat
  ↔ Exists (λ px, 0 < alpha px) row.
Proof.
  induction row as [|px row IH]; simpl.
  - split; [lia|]. by intros ?%Exists_nil.
  - rewrite Exists_cons, filter_cons.
    destruct (decide ((0 <? alpha px) = true)) as [Hpx|Hpx]; simpl.
    + split; [|lia]. intros _. left. lia.
    + rewrite IH. split; [by right|]. intros [Hpos|Hrow]; [|done].
      destruct Hpx. lia.
Qed.

Lemma mask_sum_positive (drawing : list (list RGBA)) :
  0 < mask_sum (alpha_positive drawing) ↔ has_positive_alpha drawing.
Proof.
  unfold mask_sum, alpha_positive, has_positive_alpha.
  induction drawing as [|row drawing IH]; simpl.
  - split; [lia|]. by intros ?%Exists_nil.
  - rewrite Exists_cons, filter_app, length_app, <- IH, <- row_sum_positive.
    lia.
Qed.

Section Flow.
Context (env : Env).

Lemma prompt_and_generate_button_buttons prefix pipeline_name kwargs log s :
  select generate_button
    (trace_at log
       (prompt_and_generate_button env prefix pipeline_name kwargs) s)
  = [Some (prefix +:+ "-btn")].
Proof.
  run. destruct (env_button env _ _); run; [|reflexivity].
  destruct (env_generate env _); run; [|reflexivity].
  unfold set_image. destruct (bool_decide _); reflexivity.
Qed.

Lemma image_uploader_quiet_button prefix width height :
  keeps (quiet generate_button) (image_uploader env prefix width height).
Proof. keeps_all idtac quiet_leaf. Qed.

Lemma inpainting_quiet_button : keeps (quiet generate_button) (inpainting env).
Proof. keeps_all idtac quiet_leaf. Qed.

Lemma inpainting_returns s image_input mask_input :
  outcome (inpainting env) s = Ok (image_input, mask_input) →
  (image_input = None ∧ mask_input = None)
  ∨ ∃ image mask args drawing,
      image_input = Some image ∧ mask_input = Some mask
      ∧ outcome (image_uploader env "inpainting" DEFAULT_WIDTH
                   DEFAULT_HEIGHT) s = Ok (Some image)
      ∧ background_image args = image
      ∧ env_canvas env args = Some {| image_data := Some drawing |}
      ∧ has_positive_alpha drawing
      ∧ Image.pixels (data mask) = Bilevel (alpha_positive drawing).
Proof.
  unfold inpainting. rewrite outcome_bind.
  destruct (outcome (image_uploader env "inpainting" _ _) s)
    as [[image|]|e]; [| |discriminate].
  2: { run. intros [= <- <-]. by left. }
  cbv beta iota.
  generalize (final (image_uploader env "inpainting" DEFAULT_WIDTH
                       DEFAULT_HEIGHT) s).
  generalize (trace (image_uploader env "inpainting" DEFAULT_WIDTH
                       DEFAULT_HEIGHT) s).
  intros log1 s1. run.
  match goal with
  | |- context [env_canvas env ?a] =>
      set (args := a); destruct (env_canvas env args) as [[[drawing|]]|] eqn:Hc
  end; run; try (intros [= <- <-]; by left).
  destruct (0 <? mask_sum (alpha_positive drawing)) eqn:Hsum; run;
    [|intros [= <- <-]; by left].
  intros [= <- <-]. right. eexists _, _, args, drawing.
  repeat split; try reflexivity; try exact Hc.
  apply mask_sum_positive. lia.
Qed.

(** What [inpainting] returns for an image and a drawing on the canvas. *)
Lemma inpainting_with_drawing s image drawing :
  outcome (image_uploader env "inpainting" DEFAULT_WIDTH DEFAULT_HEIGHT) s
  = Ok (Some image) →
  canvas_gives env drawing →
  has_positive_alpha drawing →
  ∃ mask,
    outcome (inpainting env) s = Ok (Some image, Some mask)
    ∧ data mask = mask_of drawing.
Proof.
  intros Hup Hcanvas Halpha. unfold inpainting. rewrite outcome_bind, Hup.
  generalize (final (image_uploader env "inpainting" DEFAULT_WIDTH
                       DEFAULT_HEIGHT) s).
  generalize (trace (image_uploader env "inpainting" DEFAULT_WIDTH
                       DEFAULT_HEIGHT) s).
  intros log1 s1. run. rewrite Hcanvas. run.
  apply mask_sum_positive in Halpha.
  rewrite (proj2 (Z.ltb_lt _ _) Halpha). run.
  eexists. split; reflexivity.
Qed.
End Flow.

Section FlowOfTabs.
Context (env : Env) (s : State).

Lemma img2img_tab_buttons :
  select generate_button (trace (img2img_tab env) s)
  = match outcome (image_uploader env "img2img" DEFAULT_WIDTH
                     DEFAULT_HEIGHT) s with
    | Ok (Some _) => [Some "img2img-btn"]
    | _ => []
    end.
Proof.
  apply (img2img_tab_select env generate_button
           (λ prefix _ _, [Some (prefix +:+ "-btn")])).
  - apply prompt_and_generate_button_buttons.
  - apply image_uploader_quiet_button.
  - reflexivity.
  - reflexivity.
Qed.

Lemma inpainting_tab_buttons :
  select generate_button (trace (inpainting_tab env) s)
  = match outcome (inpainting env) s with
    | Ok (Some _, Some _) => [Some "inpaint-btn"]
    | _ => []
    end.
Proof.
  apply (inpainting_tab_select env generate_button
           (λ prefix _ _, [Some (prefix +:+ "-btn")])).
  - apply prompt_and_generate_button_buttons.
  - apply inpainting_quiet_button.
  - reflexivity.
Qed.

Lemma upscale_tab_buttons :
  select generate_button (trace (upscale_tab env) s)
  = match outcome (image_uploader env "upscale" 256 256) s with
    | Ok _ => [Some "upscale-btn"]
    | Raise _ => []
    end.
Proof.
  apply (upscale_tab_select env generate_button
           (λ prefix _ _, [Some (prefix +:+ "-btn")])).
  - apply prompt_and_generate_button_buttons.
  - apply image_uploader_quiet_button.
  - reflexivity.
Qed.

Lemma upscale_tab_without_image :
  env_file_uploader env "Image" ["jpg"; "png"] "upscale-uploader" = None →
  session_state s !! LOADED_IMAGE_KEY = None →
  generate_clicked env "upscale" = true →
  generate_calls (trace (upscale_tab env) s)
  = [widget_call env "upscale" "upscale" [("image_input", PyNone)]].
Proof.
  intros Hfile Hloaded Hclick. unfold trace. rewrite upscale_tab_calls.
  destruct (image_uploader_no_file env "upscale" 256 256 s Hfile)
    as [-> _].
  rewrite Hloaded. unfold expected_calls. by rewrite Hclick.
Qed.
End FlowOfTabs.

(** C10: the img2img tab lays out the "Generate image" button, and with it
    the whole generation flow, only when image_uploader returned an image,
    and the inpainting tab only when inpainting returned an image and a
    mask; inpainting returns an image and a mask only when the canvas gave
    a drawing with at least one pixel of positive alpha, and (None, None)
    in every other case in which it returns; the upscale tab lays the
    button out whenever image_uploader returns, whatever it returns, so
    that with no upload, no loaded image and a click its call of generate
    has image_input equal to None. *)
Theorem generation_flow_needs_image_except_upscale (env : Env) (s : State) :
  select generate_button (trace (img2img_tab env) s)
  = match outcome (image_uploader env "img2img" DEFAULT_WIDTH
                     DEFAULT_HEIGHT) s with
    | Ok (Some _) => [Some "img2img-btn"]
    | _ => []
    end
  ∧ select generate_button (trace (inpainting_tab env) s)
    = match outcome (inpainting env) s with
      | Ok (Some _, Some _) => [Some "inpaint-btn"]
      | _ => []
      end
  ∧ (∀ image_input mask_input,
       outcome (inpainting env) s = Ok (image_input, mask_input) →
       (image_input = None ∧ mask_input = None)
       ∨ ∃ image mask args drawing,
           image_input = Some image ∧ mask_input = Some mask
           ∧ outcome (image_uploader env "inpainting" DEFAULT_WIDTH
                        DEFAULT_HEIGHT) s = Ok (Some image)
           ∧ background_image args = image
           ∧ env_canvas env args = Some {| image_data := Some drawing |}
           ∧ has_positive_alpha drawing
           ∧ Image.pixels (data mask) = Bilevel (alpha_positive drawing))
  ∧ select generate_button (trace (upscale_tab env) s)
    = match outcome (image_uploader env "upscale" 256 256) s with
      | Ok _ => [Some "upscale-btn"]
      | Raise _ => []
      end
  ∧ (env_file_uploader env "Image" ["jpg"; "png"] "upscale-uploader"
     = None →
     session_state s !! LOADED_IMAGE_KEY = None →
     generate_clicked env "upscale" = true →
     generate_calls (trace (upscale_tab env) s)
     = [widget_call env "upscale" "upscale" [("image_input", PyNone)]]).
Proof.
  split; [apply img2img_tab_buttons|].
  split; [apply inpainting_tab_buttons|].
  split; [apply inpainting_returns|].
  split; [apply upscale_tab_buttons|].
  apply upscale_tab_without_image.
Qed.

Example upscale_run_calls :
  (λ call, (g_pipeline_name call, g_kwargs call))
    <$> generate_calls (trace (main upscale_run) empty_session)
  = [("upscale", [("image_input", PyNone)])].
Proof. vm_compute. reflexivity. Qed.

Example inpainting_run_calls :
  (λ call, (g_pipeline_name call, fst <$> g_kwargs call))
    <$> generate_calls (trace (main inpainting_run) empty_session)
  = [("inpaint", ["image_input"; "mask_input"])].
Proof. vm_compute. reflexivity. Qed.

Example img2img_run_calls :
  (λ call, (g_pipeline_name call, fst <$> g_kwargs call))
    <$> generate_calls (trace (main img2img_run) empty_session)
  = [("img2img", ["image_input"])].
Proof. vm_compute. reflexivity. Qed.

Lemma generation_flow_needs_image_except_upscale_witness :
  generate_calls (trace (upscale_tab upscale_run) empty_session)
  = [widget_call upscale_run "upscale" "upscale" [("image_input", PyNone)]].
Proof.
  apply (proj2 (proj2 (proj2 (proj2
           (generation_flow_needs_image_except_upscale
              upscale_run empty_session))))); reflexivity.
Defined.

(** ** The calls of [generate], from what the widgets hold *)

Lemma length_expected_calls env prefix pipeline_name kwargs :
  length (expected_calls env prefix pipeline_name kwargs) = clicks env prefix.
Proof.
  unfold expected_calls, clicks. by destruct (generate_clicked env prefix).
Qed.


Section Inputs.
Context (env : Env) (s : State).

Lemma image_uploader_upload prefix width height d :
  upload_decodes env prefix d →
  resize_accepts width → resize_accepts height →
  outcome (image_uploader env prefix width height) s
  = Ok (Some {| oid := S (next_oid s); data := resized_to width height d |}).
Proof.
  intros (file & Hfile & Hd) Hw Hh.
  by destruct (image_uploader_file env prefix width height s file d).
Qed.

Lemma image_uploader_loaded prefix width height :
  upload env prefix = None →
  outcome (image_uploader env prefix width height) s
  = Ok (session_state s !! LOADED_IMAGE_KEY).
Proof.
  intros Hfile.
  by destruct (image_uploader_no_file env prefix width height s).
Qed.

Lemma img2img_tab_calls_upload d :
  upload_decodes env "img2img" d →
  ∃ img,
    generate_calls (trace (img2img_tab env) s)
    = expected_calls env "img2img" "img2img" [("image_input", PyImage img)]
    ∧ data img = resized_to 512 512 d.
Proof.
  intros Hup. unfold trace. rewrite img2img_tab_calls.
  rewrite (image_uploader_upload "img2img" _ _ d Hup)
    by apply resize_accepts_512.
  by eexists.
Qed.

Lemma img2img_tab_calls_loaded c :
  upload env "img2img" = None →
  session_state s !! LOADED_IMAGE_KEY = Some c →
  generate_calls (trace (img2img_tab env) s)
  = expected_calls env "img2img" "img2img" [("image_input", PyImage c)].
Proof.
  intros Hup Hc. unfold trace. rewrite img2img_tab_calls.
  by rewrite image_uploader_loaded, Hc.
Qed.

Lemma upscale_tab_calls_upload d :
  upload_decodes env "upscale" d →
  ∃ img,
    generate_calls (trace (upscale_tab env) s)
    = expected_calls env "upscale" "upscale" [("image_input", PyImage img)]
    ∧ data img = resized_to 256 256 d.
Proof.
  intros Hup. unfold trace. rewrite upscale_tab_calls.
  rewrite (image_uploader_upload "upscale" _ _ d Hup)
    by apply resize_accepts_256.
  by eexists.
Qed.

Lemma upscale_tab_calls_no_upload :
  upload env "upscale" = None →
  generate_calls (trace (upscale_tab env) s)
  = expected_calls env "upscale" "upscale"
      [("image_input", py_of_image (session_state s !! LOADED_IMAGE_KEY))].
Proof.
  intros Hup. unfold trace. rewrite upscale_tab_calls.
  by rewrite image_uploader_loaded.
Qed.

Lemma inpainting_tab_calls_upload d drawing :
  upload_decodes env "inpainting" d →
  canvas_gives env drawing →
  has_positive_alpha drawing →
  ∃ image mask,
    generate_calls (trace (inpainting_tab env) s)
    = expected_calls env "inpaint" "inpaint"
        [("image_input", PyImage image); ("mask_input", PyImage mask)]
    ∧ data image = resized_to 512 512 d
    ∧ data mask = mask_of drawing.
Proof.
  intros Hup Hcanvas Halpha. unfold trace. rewrite inpainting_tab_calls.
  pose proof (image_uploader_upload "inpainting" 512 512 d Hup
                resize_accepts_512 resize_accepts_512) as Himage.
  destruct (inpainting_with_drawing env s _ drawing Himage Hcanvas Halpha)
    as (mask & -> & Hmask).
  by eexists _, mask.
Qed.

Lemma inpainting_tab_calls_loaded c drawing :
  upload env "inpainting" = None →
  session_state s !! LOADED_IMAGE_KEY = Some c →
  canvas_gives env drawing →
  has_positive_alpha drawing →
  ∃ mask,
    generate_calls (trace (inpainting_tab env) s)
    = expected_calls env "inpaint" "inpaint"
        [("image_input", PyImage c); ("mask_input", PyImage mask)]
    ∧ data mask = mask_of drawing.
Proof.
  intros Hup Hc Hcanvas Halpha. unfold trace. rewrite inpainting_tab_calls.
  pose proof (image_uploader_loaded "inpainting" 512 512 Hup) as Himage.
  rewrite Hc in Himage.
  destruct (inpainting_with_drawing env s _ drawing Himage Hcanvas Halpha)
    as (mask & -> & Hmask).
  by exists mask.
Qed.
End Inputs.

(** ** One call of [generate] per click *)

Section Once.
Context (env : Env).

Lemma prompt_and_generate_button_balanced prefix pipeline_name kwargs :
  keeps balanced (prompt_and_generate_button env prefix pipeline_name kwargs).
Proof.
  intros log s. unfold balanced. run.
  destruct (env_button env _ _); run; [|reflexivity].
  destruct (env_generate env _); run; [|reflexivity].
  unfold set_image. destruct (bool_decide _); reflexivity.
Qed.

Lemma main_balanced : keeps balanced (main env).
Proof.
  keeps_all
    ltac:(idtac;
          lazymatch goal with
          | |- keeps _ (prompt_and_generate_button _ _ _ _) =>
              apply prompt_and_generate_button_balanced
          end)
    ltac:(unfold balanced; reflexivity).
Qed.
End Once.

(** C1, as the specification has it, fails: it is not the case that every
    image a run makes comes from generate.  With a picture in the uploader
    of the img2img tab and no click, PIL makes two images, the one opened
    from the file and the resized one, which the tab shows, and generate is
    not called. *)
Lemma images_made_without_generate :
  ¬ (∀ env s,
       select made_image (trace (main env) s) = generated (trace (main env) s)).
Proof.
  intros H. specialize (H upload_only_run empty_session).
  vm_compute in H. discriminate H.
Qed.

Example upload_only_run_images :
  (λ img, (img_width img, img_height img))
    <$> select made_image (trace (main upload_only_run) empty_session)
  = [(640, 480); (512, 512)]
  ∧ (λ img, (img_width img, img_height img))
      <$> select shown_image (trace (main upload_only_run) empty_session)
    = [(512, 512)]
  ∧ generate_calls (trace (main upload_only_run) empty_session) = [].
Proof. vm_compute. done. Qed.

(** C1, amended: every call of generate comes from a click on a "Generate
    image" button: over a whole run of main, generate is called exactly as
    often as such a button reported a click.  The txt2img tab calls generate
    exactly once when its button reports a click and not at all otherwise;
    so does the img2img tab when it has an input image, a decodable upload
    or, without an upload, the loaded image of the session; so does the
    inpainting tab when it has an input image and the canvas gives a
    drawing with a pixel of positive alpha; so does the upscale tab with a
    decodable upload or without an upload.  No tab calls generate more than
    once. *)
Theorem generate_exactly_once_per_click (env : Env) (s : State) :
  count is_generate (trace (main env) s)
  = count is_generate_click (trace (main env) s)
  ∧ count is_generate (trace (txt2img_tab env) s) = clicks env "txt2img"
  ∧ (∀ d, upload_decodes env "img2img" d →
       count is_generate (trace (img2img_tab env) s) = clicks env "img2img")
  ∧ (upload env "img2img" = None →
     is_Some (session_state s !! LOADED_IMAGE_KEY) →
     count is_generate (trace (img2img_tab env) s) = clicks env "img2img")
  ∧ (∀ d drawing,
       upload_decodes env "inpainting" d →
       canvas_gives env drawing → has_positive_alpha drawing →
       count is_generate (trace (inpainting_tab env) s)
       = clicks env "inpaint")
  ∧ (∀ drawing,
       upload env "inpainting" = None →
       is_Some (session_state s !! LOADED_IMAGE_KEY) →
       canvas_gives env drawing → has_positive_alpha drawing →
       count is_generate (trace (inpainting_tab env) s)
       = clicks env "inpaint")
  ∧ (∀ d, upload_decodes env "upscale" d →
       count is_generate (trace (upscale_tab env) s) = clicks env "upscale")
  ∧ (upload env "upscale" = None →
     count is_generate (trace (upscale_tab env) s) = clicks env "upscale")
  ∧ (count is_generate (trace (img2img_tab env) s) ≤ 1)%nat
  ∧ (count is_generate (trace (inpainting_tab env) s) ≤ 1)%nat
  ∧ (count is_generate (trace (upscale_tab env) s) ≤ 1)%nat.
Proof.
  assert (Hle : ∀ prefix pipeline_name kwargs,
            (length (expected_calls env prefix pipeline_name kwargs) ≤ 1)%nat).
  { intros prefix pipeline_name kwargs. rewrite length_expected_calls.
    unfold clicks. destruct (generate_clicked env prefix); lia. }
  rewrite !count_generate.
  split; [rewrite <- count_generate; apply (main_balanced env [] s)|].
  split.
  { unfold trace. by rewrite txt2img_tab_calls, length_expected_calls. }
  split.
  { intros d Hup. destruct (img2img_tab_calls_upload env s d Hup)
      as (img & -> & _). apply length_expected_calls. }
  split.
  { intros Hup [c Hc]. rewrite (img2img_tab_calls_loaded env s c Hup Hc).
    apply length_expected_calls. }
  split.
  { intros d drawing Hup Hcanvas Halpha.
    destruct (inpainting_tab_calls_upload env s d drawing Hup Hcanvas Halpha)
      as (image & mask & -> & _). apply length_expected_calls. }
  split.
  { intros drawing Hup [c Hc] Hcanvas Halpha.
    destruct (inpainting_tab_calls_loaded env s c drawing Hup Hc Hcanvas
                Halpha) as (mask & -> & _).
    apply length_expected_calls. }
  split.
  { intros d Hup. destruct (upscale_tab_calls_upload env s d Hup)
      as (img & -> & _). apply length_expected_calls. }
  split.
  { intros Hup. rewrite (upscale_tab_calls_no_upload env s Hup).
    apply length_expected_calls. }
  unfold trace.
  rewrite img2img_tab_calls, inpainting_tab_calls, upscale_tab_calls.
  split; [|split].
  - destruct (outcome _ s) as [[img|]|e]; first [apply Hle | simpl; lia].
  - destruct (outcome _ s) as [[[image|] [mask|]]|e];
      first [apply Hle | simpl; lia].
  - destruct (outcome _ s) as [image|e]; first [apply Hle | simpl; lia].
Qed.

Lemma generate_exactly_once_per_click_witness :
  count is_generate (trace (img2img_tab img2img_run) empty_session) = 1%nat
  ∧ count is_generate (trace (inpainting_tab inpainting_run) empty_session)
    = 1%nat.
Proof.
  split.
  - apply (proj1 (proj2 (proj2 (generate_exactly_once_per_click
                                  img2img_run empty_session)))
             demo_picture).
    by exists demo_file.
  - apply (proj1 (proj2 (proj2 (proj2 (proj2
             (generate_exactly_once_per_click
                inpainting_run empty_session)))))
             demo_picture demo_drawing).
    + by exists demo_file.
    + intros args. reflexivity.
    + repeat constructor.
Defined.

(** ** The arguments of the calls *)

(** C3, as the specification has it, fails: an uploaded image does not
    reach generate unchanged.  With a 640x480 picture in the uploader of the
    img2img tab and a click, the image_input of the call is not that
    picture but an image of 512x512 resampled from it. *)
Lemma uploaded_image_reaches_generate_resized :
  ¬ (∀ env s d call img,
       upload_decodes env "img2img" d →
       call ∈ generate_calls (trace (img2img_tab env) s) →
       g_kwargs call = [("image_input", PyImage img)] →
       data img = d).
Proof.
  intros H.
  assert (Heq : resized_to 512 512 demo_picture = demo_picture).
  { apply (H img2img_run empty_session demo_picture
             (widget_call img2img_run "img2img" "img2img"
                [("image_input",
                  PyImage {| oid := 1;
                             data := resized_to 512 512 demo_picture |})])
             {| oid := 1; data := resized_to 512 512 demo_picture |}).
    - by exists demo_file.
    - apply list_elem_of_singleton. reflexivity.
    - reflexivity. }
  discriminate Heq.
Qed.

(** C3, amended: when the "Generate image" button of a tab reports a click,
    generate is called with the prompt, the negative prompt, the steps and
    the guidance scale that the tab's widgets hold, unchanged, and without a
    click it is not called.  The keyword arguments are: for txt2img the
    values of the two sliders as width and height, unchanged; for img2img
    and upscale as image_input the uploaded image resized to 512x512 and to
    256x256, or, without an upload, the loaded image of the session,
    unchanged, which for upscale may be None; for inpainting that image as
    for img2img, and as mask_input the mask made of the pixels of positive
    alpha of the canvas drawing. *)
Theorem generate_receives_widget_values (env : Env) (s : State) :
  (∀ prefix pipeline_name kwargs log,
     generate_calls
       (trace_at log
          (prompt_and_generate_button env prefix pipeline_name kwargs) s)
     = if generate_clicked env prefix
       then [widget_call env prefix pipeline_name kwargs]
       else [])
  ∧ generate_calls (trace (txt2img_tab env) s)
    = expected_calls env "txt2img" "txt2img"
        [("width", PyInt (txt2img_width env));
         ("height", PyInt (txt2img_height env))]
  ∧ (∀ d, upload_decodes env "img2img" d →
       ∃ img,
         generate_calls (trace (img2img_tab env) s)
         = expected_calls env "img2img" "img2img"
             [("image_input", PyImage img)]
         ∧ data img = resized_to 512 512 d)
  ∧ (∀ c, upload env "img2img" = None →
       session_state s !! LOADED_IMAGE_KEY = Some c →
       generate_calls (trace (img2img_tab env) s)
       = expected_calls env "img2img" "img2img"
           [("image_input", PyImage c)])
  ∧ (∀ d, upload_decodes env "upscale" d →
       ∃ img,
         generate_calls (trace (upscale_tab env) s)
         = expected_calls env "upscale" "upscale"
             [("image_input", PyImage img)]
         ∧ data img = resized_to 256 256 d)
  ∧ (upload env "upscale" = None →
     generate_calls (trace (upscale_tab env) s)
     = expected_calls env "upscale" "upscale"
         [("image_input",
           py_of_image (session_state s !! LOADED_IMAGE_KEY))])
  ∧ (∀ d drawing,
       upload_decodes env "inpainting" d →
       canvas_gives env drawing → has_positive_alpha drawing →
       ∃ image mask,
         generate_calls (trace (inpainting_tab env) s)
         = expected_calls env "inpaint" "inpaint"
             [("image_input", PyImage image); ("mask_input", PyImage mask)]
         ∧ data image = resized_to 512 512 d
         ∧ data mask = mask_of drawing)
  ∧ (∀ c drawing,
       upload env "inpainting" = None →
       session_state s !! LOADED_IMAGE_KEY = Some c →
       canvas_gives env drawing → has_positive_alpha drawing →
       ∃ mask,
         generate_calls (trace (inpainting_tab env) s)
         = expected_calls env "inpaint" "inpaint"
             [("image_input", PyImage c); ("mask_input", PyImage mask)]
         ∧ data mask = mask_of drawing).
Proof.
  split; [intros; apply prompt_and_generate_button_calls|].
  split; [apply txt2img_tab_calls|].
  split; [apply img2img_tab_calls_upload|].
  split; [apply img2img_tab_calls_loaded|].
  split; [apply upscale_tab_calls_upload|].
  split; [apply upscale_tab_calls_no_upload|].
  split; [apply inpainting_tab_calls_upload|].
  apply inpainting_tab_calls_loaded.
Qed.

Lemma generate_receives_widget_values_witness :
  ∃ img,
    generate_calls (trace (img2img_tab img2img_run) empty_session)
    = expected_calls img2img_run "img2img" "img2img"
        [("image_input", PyImage img)]
    ∧ data img = resized_to 512 512 demo_picture.
Proof.
  apply (proj1 (proj2 (proj2 (generate_receives_widget_values
                                img2img_run empty_session)))
           demo_picture).
  by exists demo_file.
Defined.

Example inpainting_run_arguments :
  (λ call,
     (g_prompt call, g_steps call,
      omap (λ kv, match kv.2 with
                  | PyImage img => Some (kv.1, data img)
                  | _ => None
                  end) (g_kwargs call)))
    <$> generate_calls (trace (main inpainting_run) empty_session)
  = [(DEFAULT_PROMPT, 50,
      [("image_input", resized_to 512 512 demo_picture);
       ("mask_input", mask_of demo_drawing)])].
Proof. vm_compute. reflexivity. Qed.

(** ** The four tabs *)

#[export] Instance in_tabs_sequential : Sequential in_tabs.
Proof.
  split; unfold in_tabs.
  - intros _. constructor.
  - intros _ _ _ t1 t2 H1 H2. by apply Forall_app.
Qed.







Example main_pipelines :
  g_pipeline_name <$> generate_calls (trace (main txt2img_run) empty_session)
  = ["txt2img"]
  ∧ g_pipeline_name
      <$> generate_calls (trace (main inpainting_run) empty_session)
    = ["inpaint"]
  ∧ g_pipeline_name
      <$> generate_calls (trace (main img2img_run) empty_session)
    = ["img2img"]
  ∧ g_pipeline_name
      <$> generate_calls (trace (main upscale_run) empty_session)
    = ["upscale"].
Proof. vm_compute. done. Qed.

(** ** The uploader *)


Example image_uploader_failures :
  outcome (image_uploader unreadable_run "img2img" 512 512) empty_session
  = Raise UnidentifiedImageError
  ∧ outcome (image_uploader truncated_run "img2img" 512 512) empty_session
    = Raise OSError
  ∧ select printed
      (trace (image_uploader truncated_run "img2img" 512 512) empty_session)
    = ["loaded input image of size (640, 480)"]
  ∧ outcome (image_uploader img2img_run "img2img" 0 (-3)) empty_session
    = Raise ValueError
  ∧ outcome (image_uploader img2img_run "img2img" 2147483648 512)
      empty_session
    = Raise OverflowError.
Proof. vm_compute. done. Qed.



(** ** Resizing and cropping *)

Lemma main_never_crops env : keeps (quiet (pil_call "crop")) (main env).
Proof. keeps_all idtac quiet_leaf. Qed.

(** C6, as the specification has it, fails: it is not the case that every
    uploaded image is both resized and cropped.  With a readable picture in
    the uploader of the img2img tab, image_uploader calls resize on the
    image it opened and never calls crop. *)
Lemma uploaded_image_is_not_cropped :
  ¬ (∀ env prefix width height s file d,
       env_file_uploader env "Image" ["jpg"; "png"] (prefix +:+ "-uploader")
       = Some file →
       file_image file = Some d →
       pil_calls "resize" (trace (image_uploader env prefix width height) s)
       ≠ []
       ∧ pil_calls "crop" (trace (image_uploader env prefix width height) s)
         ≠ []).
Proof.
  intros H.
  destruct (H img2img_run "img2img" 512 512 empty_session _ _
              eq_refl eq_refl) as [_ Hcrop].
  apply Hcrop. reflexivity.
Qed.

(** C6, amended: every uploaded image that PIL can decode is resized:
    asked for a width and a height that are positive C ints,
    image_uploader calls resize once, on the image it opened from the file,
    and the result has that width and height.  No run of main calls
    crop. *)
Theorem uploaded_images_are_resized_never_cropped (env : Env) (s : State) :
  (∀ prefix width height d,
     upload_decodes env prefix d →
     resize_accepts width → resize_accepts height →
     ∃ opened img,
       data opened = d
       ∧ pil_calls "resize" (trace (image_uploader env prefix width height) s)
         = [(Some opened, Some img)]
       ∧ img_width img = width ∧ img_height img = height)
  ∧ pil_calls "crop" (trace (main env) s) = [].
Proof.
  split.
  - intros prefix width height d (file & Hfile & Hd) Hw Hh.
    destruct (image_uploader_file env prefix width height s file d
                Hfile Hd Hw Hh) as (_ & Hcalls & _).
    exists {| oid := next_oid s; data := d |},
      {| oid := S (next_oid s); data := resized_to width height d |}.
    split; [reflexivity|]. split; [exact Hcalls|done].
  - apply (main_never_crops env [] s).
Qed.

Lemma uploaded_images_are_resized_never_cropped_witness :
  (∃ opened img,
     data opened = demo_picture
     ∧ pil_calls "resize"
         (trace (image_uploader img2img_run "img2img" 512 512) empty_session)
       = [(Some opened, Some img)]
     ∧ img_width img = 512 ∧ img_height img = 512)
  ∧ pil_calls "crop" (trace (main img2img_run) empty_session) = [].
Proof.
  destruct (uploaded_images_are_resized_never_cropped
              img2img_run empty_session) as [Hresize Hcrop].
  split; [|exact Hcrop].
  apply (Hresize "img2img" 512 512 demo_picture).
  - by exists demo_file.
  - apply resize_accepts_512.
  - apply resize_accepts_512.
Defined.

Example img2img_run_pil :
  select (λ a, match a with
               | Pil method _ (Some r) =>
                   Some (method, img_width r, img_height r)
               | _ => None
               end)
    (trace (main img2img_run) empty_session)
  = [("open", 640, 480); ("resize", 512, 512); ("copy", 768, 768)].
Proof. vm_compute. reflexivity. Qed.

(** ** Widget keys *)

#[export] Instance within_scopeless keys : Scopeless (within keys).
Proof. intros c s s' t. unfold within. by rewrite select_inside. Qed.

Lemma within_bind {A B} keys1 keys2 (m : M A) (f : A → M B) :
  keeps (within keys1) m → (∀ a, keeps (within keys2) (f a)) →
  keeps (within (keys1 ++ keys2)) (m ≫= f).
Proof.
  intros Hm Hf log s. unfold within. rewrite trace_at_bind.
  destruct (outcome_at log m s) as [a|e].
  - rewrite select_app. apply sublist_app; [apply Hm|apply Hf].
  - apply sublist_inserts_r, Hm.
Qed.

Lemma within_weaken {A} keys keys' (m : M A) :
  keys `sublist_of` keys' → keeps (within keys) m → keeps (within keys') m.
Proof.
  intros Hsub Hm log s. unfold within. etrans; [apply Hm|exact Hsub].
Qed.

Lemma within_quiet {A} (m : M A) :
  keeps (quiet widget_key) m → keeps (within []) m.
Proof. intros Hm log s. unfold within. by rewrite (Hm log s). Qed.

Ltac within_exact :=
  let log := fresh in let s := fresh in
  intros log s; unfold within; reflexivity.

Section Keys.
Context (env : Env).

Lemma prompt_and_generate_button_keys prefix pipeline_name kwargs log s :
  select widget_key
    (trace_at log
       (prompt_and_generate_button env prefix pipeline_name kwargs) s)
  = button_keys prefix.
Proof.
  run. destruct (env_button env _ _); run; [|reflexivity].
  destruct (env_generate env _); run; [|reflexivity].
  unfold set_image. destruct (bool_decide _); reflexivity.
Qed.

Lemma image_uploader_keys prefix width height log s :
  select widget_key (trace_at log (image_uploader env prefix width height) s)
  = [prefix +:+ "-uploader"].
Proof.
  run. destruct (env_file_uploader env _ _ _) as [file|]; run;
    [|reflexivity].
  destruct (file_image file); run.
  - unfold Image_resize. run.
    repeat (match goal with
            | |- context [if ?b then _ else _] => destruct b
            end; run); reflexivity.
  - destruct (file_header file) as [[w h]|]; run; [|reflexivity].
    rewrite Image_resize_undecodable by done. reflexivity.
Qed.

Lemma prompt_and_generate_button_within prefix pipeline_name kwargs :
  keeps (within (button_keys prefix))
    (prompt_and_generate_button env prefix pipeline_name kwargs).
Proof.
  intros log s. unfold within. by rewrite prompt_and_generate_button_keys.
Qed.

Lemma image_uploader_within prefix width height :
  keeps (within [prefix +:+ "-uploader"])
    (image_uploader env prefix width height).
Proof. intros log s. unfold within. by rewrite image_uploader_keys. Qed.

Lemma txt2img_tab_within :
  keeps (within (["txt2img-width"; "txt2img-height"] ++ button_keys "txt2img"))
    (txt2img_tab env).
Proof.
  apply (within_bind ["txt2img-width"; "txt2img-height"]
           (button_keys "txt2img")).
  - within_exact.
  - intros [width height]. apply prompt_and_generate_button_within.
Qed.

Lemma inpainting_within :
  keeps (within ["inpainting-uploader"; "inpainting"]) (inpainting env).
Proof.
  apply (within_bind ["inpainting-uploader"] ["inpainting"]);
    [apply image_uploader_within|].
  intros [image|]; [|intros log s; apply sublist_nil_l].
  intros log s. unfold within. run.
  destruct (env_canvas env _) as [[[drawing|]]|]; run;
    try reflexivity.
  destruct (0 <? mask_sum (alpha_positive drawing)); reflexivity.
Qed.

Lemma inpainting_tab_within :
  keeps (within (["inpainting-uploader"; "inpainting"]
                 ++ button_keys "inpaint"))
    (inpainting_tab env).
Proof.
  apply (within_bind [] _ (st.columns 2)); [within_exact|].
  intros _.
  apply (within_bind ["inpainting-uploader"; "inpainting"]
           (button_keys "inpaint")).
  - apply keeps_with; [apply _|]. apply inpainting_within.
  - intros [[image|] [mask|]]; apply keeps_with; try apply _;
      first [ apply prompt_and_generate_button_within
            | intros log s; apply sublist_nil_l ].
Qed.

Lemma img2img_tab_within :
  keeps (within (["img2img-uploader"] ++ button_keys "img2img"))
    (img2img_tab env).
Proof.
  apply (within_bind [] _ (st.columns 2)); [within_exact|].
  intros _. apply (within_bind ["img2img-uploader"] (button_keys "img2img")).
  - apply keeps_with; [apply _|].
    apply (within_bind ["img2img-uploader"] []);
      [apply image_uploader_within|].
    intros image. apply within_quiet. keeps_all idtac quiet_leaf.
  - intros [img|]; apply keeps_with; try apply _;
      first [ apply prompt_and_generate_button_within
            | intros log s; apply sublist_nil_l ].
Qed.

Lemma upscale_tab_within :
  keeps (within (["upscale-uploader"] ++ button_keys "upscale"))
    (upscale_tab env).
Proof.
  unfold upscale_tab. cbv zeta.
  apply (within_bind ["upscale-uploader"] (button_keys "upscale"));
    [apply image_uploader_within|].
  intros image. apply (within_bind [] (button_keys "upscale")).
  - apply within_quiet. keeps_all idtac quiet_leaf.
  - intros _. apply prompt_and_generate_button_within.
Qed.

Lemma main_sidebar_within : keeps (within []) (main_sidebar env).
Proof. apply within_quiet. keeps_all idtac quiet_leaf. Qed.

Lemma main_tabs_within : keeps (within main_keys) (main_tabs env).
Proof.
  unfold main_tabs.
  apply (within_bind [] main_keys (st.set_page_config "wide"));
    [within_exact|]. intros _.
  apply (within_bind [] main_keys (st.title _)); [within_exact|]. intros _.
  apply (within_bind [] main_keys (st.tabs _)); [within_exact|]. intros _.
  apply (within_bind
           (["txt2img-width"; "txt2img-height"] ++ button_keys "txt2img")
           (["inpainting-uploader"; "inpainting"] ++ button_keys "inpaint"
            ++ ["img2img-uploader"] ++ button_keys "img2img"
            ++ ["upscale-uploader"] ++ button_keys "upscale")).
  { apply keeps_with; [apply _|]. apply txt2img_tab_within. }
  intros _.
  apply (within_bind
           (["inpainting-uploader"; "inpainting"] ++ button_keys "inpaint")
           (["img2img-uploader"] ++ button_keys "img2img"
            ++ ["upscale-uploader"] ++ button_keys "upscale")).
  { apply keeps_with; [apply _|]. apply inpainting_tab_within. }
  intros _.
  apply (within_bind
           (["img2img-uploader"] ++ button_keys "img2img")
           (["upscale-uploader"] ++ button_keys "upscale")).
  { apply keeps_with; [apply _|]. apply img2img_tab_within. }
  intros _. apply keeps_with; [apply _|]. apply upscale_tab_within.
Qed.

Lemma main_within : keeps (within main_keys) (main env).
Proof.
  unfold main.
  apply (within_bind [] main_keys (st.set_page_config "wide"));
    [within_exact|]. intros _.
  apply (within_bind [] main_keys (st.title _)); [within_exact|]. intros _.
  apply (within_bind [] main_keys (st.tabs _)); [within_exact|]. intros _.
  apply (within_bind
           (["txt2img-width"; "txt2img-height"] ++ button_keys "txt2img")
           (["inpainting-uploader"; "inpainting"] ++ button_keys "inpaint"
            ++ ["img2img-uploader"] ++ button_keys "img2img"
            ++ ["upscale-uploader"] ++ button_keys "upscale")).
  { apply keeps_with; [apply _|]. apply txt2img_tab_within. }
  intros _.
  apply (within_bind
           (["inpainting-uploader"; "inpainting"] ++ button_keys "inpaint")
           (["img2img-uploader"] ++ button_keys "img2img"
            ++ ["upscale-uploader"] ++ button_keys "upscale")).
  { apply keeps_with; [apply _|]. apply inpainting_tab_within. }
  intros _.
  apply (within_bind
           (["img2img-uploader"] ++ button_keys "img2img")
           (["upscale-uploader"] ++ button_keys "upscale")).
  { apply keeps_with; [apply _|]. apply img2img_tab_within. }
  intros _.
  apply (within_bind (["upscale-uploader"] ++ button_keys "upscale") []).
  { apply keeps_with; [apply _|]. apply upscale_tab_within. }
  intros _. apply keeps_with; [apply _|]. apply main_sidebar_within.
Qed.
End Keys.

Lemma main_keys_NoDup : NoDup main_keys.
Proof. apply (bool_decide_unpack _). vm_compute. exact I. Qed.

(** X7: in every run of main the widgets that are given a key get
    pairwise different keys: the keys in use are among the 26 keys of the
    script, in the order of main, none twice. *)
Theorem widget_keys_are_distinct (env : Env) (s : State) :
  select widget_key (trace (main env) s) `sublist_of` main_keys
  ∧ NoDup (select widget_key (trace (main env) s)).
Proof.
  pose proof (main_within env [] s) as Hsub. split; [exact Hsub|].
  eapply sublist_NoDup; [apply main_keys_NoDup|exact Hsub].
Qed.

Example inpainting_run_keys :
  select widget_key (trace (main inpainting_run) empty_session)
  = ["txt2img-width"; "txt2img-height"] ++ button_keys "txt2img"
    ++ ["inpainting-uploader"; "inpainting"] ++ button_keys "inpaint"
    ++ ["img2img-uploader"; "upscale-uploader"] ++ button_keys "upscale".
Proof. vm_compute. reflexivity. Qed.

Example main_keys_length : length main_keys = 26%nat.
Proof. reflexivity. Qed.

(** No widget of the script has one of the two keys under which the
    script stores images. *)
Lemma button_keys_unprotected prefix :
  (OUTPUT_IMAGE_KEY ∉ button_keys prefix)
  ∧ (LOADED_IMAGE_KEY ∉ button_keys prefix).
Proof.
  split; unfold button_keys;
    repeat first
      [ apply not_elem_of_nil
      | apply not_elem_of_cons; split; [key_differs|] ].
Qed.

Lemma main_keys_unprotected :
  (OUTPUT_IMAGE_KEY ∉ main_keys) ∧ (LOADED_IMAGE_KEY ∉ main_keys).
Proof. split; apply (bool_decide_unpack _); vm_compute; exact I. Qed.

Lemma main_tabs_unprotected env s : unprotected (trace (main_tabs env) s).
Proof.
  eapply unprotected_keys; [apply (main_tabs_within env [] s)|..];
    apply main_keys_unprotected.
Qed.

(** ** Exceptions *)

Lemma raises_only_ret {A} P (a : A) : raises_only P (mret a).
Proof. intros log s e. discriminate. Qed.

Lemma raises_only_raise {A} (P : Exn → Prop) e :
  P e → raises_only P (@raise A e).
Proof. intros HP log s e' [= <-]. exact HP. Qed.

Lemma raises_only_emit P a : raises_only P (emit a).
Proof. intros log s e. discriminate. Qed.

Lemma raises_only_new_image P d : raises_only P (new_image d).
Proof. intros log s e. discriminate. Qed.

Lemma raises_only_register P key v : raises_only P (register key v).
Proof. intros log s e. discriminate. Qed.

Lemma raises_only_get_image P key : raises_only P (get_image key).
Proof. intros log s e. discriminate. Qed.

Lemma raises_only_set_image (P : Exn → Prop) key img :
  P StreamlitAPIException → raises_only P (set_image key img).
Proof.
  intros HP log s e. unfold outcome_at, set_image.
  destruct (bool_decide _); simpl; [|discriminate]. by intros [= <-].
Qed.

Lemma raises_only_bind {A B} P (m : M A) (f : A → M B) :
  raises_only P m → (∀ a, raises_only P (f a)) → raises_only P (m ≫= f).
Proof.
  intros Hm Hf log s e. rewrite outcome_at_bind.
  destruct (outcome_at log m s) as [a|e'] eqn:Hout.
  - apply Hf.
  - intros [= <-]. by apply (Hm log s).
Qed.

Lemma raises_only_with {A} P c (m : M A) :
  raises_only P m → raises_only P (with_ c m).
Proof. intros Hm log s e. rewrite outcome_at_with. apply Hm. Qed.

(** Breaks a goal [raises_only P m] down along the structure of [m]; [leaf]
    has to show [P] of the exceptions [m] raises itself. *)
Ltac raises_step known leaf :=
  first
  [ progress known
  | lazymatch goal with
    | |- raises_only _ (mret _) => apply raises_only_ret
    | |- raises_only _ (raise _) => apply raises_only_raise; leaf
    | |- raises_only _ (emit _) => apply raises_only_emit
    | |- raises_only _ (new_image _) => apply raises_only_new_image
    | |- raises_only _ (register _ _) => apply raises_only_register
    | |- raises_only _ (get_image _) => apply raises_only_get_image
    | |- raises_only _ (set_image _ _) => apply raises_only_set_image; leaf
    | |- raises_only _ (mbind _ _) => apply raises_only_bind; [|intros ?]
    | |- raises_only _ (with_ _ _) => apply raises_only_with
    | |- raises_only _ (match ?x with _ => _ end) => destruct x
    | |- raises_only _ _ => unfold_script
    end ].

Ltac raises_all known leaf := repeat raises_step known leaf.

#[export] Instance anything_sequential : Sequential anything.
Proof. by split. Qed.

#[export] Instance anything_scopeless : Scopeless anything.
Proof. by intros c s s' t. Qed.

Section Exceptions.
Context (env : Env).

Lemma main_tabs_never_rerun :
  raises_only (λ e, e ≠ RerunException) (main_tabs env).
Proof. raises_all idtac ltac:(discriminate). Qed.

Lemma main_sidebar_raises :
  raises_only (λ e, e = RerunException ∨ e = StreamlitAPIException)
    (main_sidebar env).
Proof. raises_all idtac ltac:(by (left + right)). Qed.

Lemma main_sidebar_stores : stores anything (main_sidebar env).
Proof. stores_all idtac ltac:(exact I). Qed.

Lemma main_sidebar_only_reruns log s e :
  unprotected log →
  outcome_at log (main_sidebar env) s = Raise e → e = RerunException.
Proof.
  intros Hlog Hout.
  destruct (main_sidebar_stores log s Hlog) as (_ & _ & Hne).
  destruct (main_sidebar_raises log s e Hout) as [->| ->]; [done|].
  by rewrite Hout in Hne.
Qed.

Lemma main_split log s :
  main env log s = (main_tabs env;; with_ Sidebar (main_sidebar env)) log s.
Proof.
  unfold main, main_tabs. symmetry.
  repeat (rewrite bind_assoc; apply bind_ext; intros ? ? ?).
  reflexivity.
Qed.

Lemma outcome_main s :
  outcome (main env) s
  = match outcome (main_tabs env) s with
    | Ok _ =>
        outcome_at (trace (main_tabs env) s) (main_sidebar env)
          (final (main_tabs env) s)
    | Raise e => Raise e
    end.
Proof.
  unfold outcome at 1, outcome_at. rewrite main_split.
  fold (outcome_at [] (main_tabs env;; with_ Sidebar (main_sidebar env)) s).
  rewrite outcome_at_bind. fold (outcome (main_tabs env) s).
  destruct (outcome (main_tabs env) s); [apply outcome_at_with|reflexivity].
Qed.

Lemma final_main s :
  final (main env) s
  = match outcome (main_tabs env) s with
    | Ok _ =>
        final_at (trace (main_tabs env) s) (main_sidebar env)
          (final (main_tabs env) s)
    | Raise e => final (main_tabs env) s
    end.
Proof.
  unfold final at 1, final_at. rewrite main_split.
  fold (final_at [] (main_tabs env;; with_ Sidebar (main_sidebar env)) s).
  rewrite final_at_bind. fold (outcome (main_tabs env) s).
  destruct (outcome (main_tabs env) s); [apply final_at_with|reflexivity].
Qed.

Lemma trace_main s :
  trace (main env) s
  = match outcome (main_tabs env) s with
    | Ok _ =>
        trace (main_tabs env) s
        ++ (inside Sidebar <$>
              trace_at (trace (main_tabs env) s) (main_sidebar env)
                (final (main_tabs env) s))
    | Raise e => trace (main_tabs env) s
    end.
Proof.
  unfold trace at 1, trace_at. rewrite main_split.
  fold (trace_at [] (main_tabs env;; with_ Sidebar (main_sidebar env)) s).
  rewrite trace_at_bind. fold (outcome (main_tabs env) s).
  destruct (outcome (main_tabs env) s);
    [by rewrite trace_at_with|reflexivity].
Qed.

Lemma main_sidebar_header log s1 :
  select sidebar_header (trace_at log (main_sidebar env) s1) = [tt].
Proof.
  run. destruct (session_state s1 !! OUTPUT_IMAGE_KEY) as [c|]; run;
    [|reflexivity].
  destruct (env_button env _ _); run; [|reflexivity].
  unfold set_image. destruct (bool_decide _); reflexivity.
Qed.

Lemma main_tabs_quiet_header : keeps (quiet sidebar_header) (main_tabs env).
Proof. keeps_all idtac quiet_leaf. Qed.

Lemma main_tabs_quiet_text : keeps (quiet no_output_text) (main_tabs env).
Proof. keeps_all idtac quiet_leaf. Qed.

(** A run gets to the sidebar exactly when no tab raised. *)
Lemma main_reaches_sidebar s :
  select sidebar_header (trace (main env) s)
  = match outcome (main env) s with
    | Ok _ | Raise RerunException => [tt]
    | Raise _ => []
    end.
Proof.
  rewrite trace_main, outcome_main.
  pose proof (main_tabs_quiet_header [] s) as Hh. unfold quiet in Hh.
  fold (trace (main_tabs env) s) in Hh.
  pose proof (main_tabs_never_rerun [] s) as Hnever.
  fold (outcome (main_tabs env) s) in Hnever.
  pose proof (main_tabs_unprotected env s) as Hlog.
  destruct (outcome (main_tabs env) s) as [[]|e].
  - rewrite select_app, select_inside, Hh, main_sidebar_header.
    pose proof (main_sidebar_only_reruns (trace (main_tabs env) s)
                  (final (main_tabs env) s)) as Hs.
    destruct (outcome_at _ (main_sidebar env) _) as [[]|e]; [reflexivity|].
    by rewrite (Hs e).
  - rewrite Hh. specialize (Hnever e eq_refl). by destruct e.
Qed.

End Exceptions.

(** ** The output image *)

#[export] Instance stored_last_sequential : Sequential stored_last.
Proof.
  split; unfold stored_last.
  - reflexivity.
  - intros s1 s2 s3 t1 t2 H1 H2. unfold generated in *.
    rewrite select_app, last_app, H2.
    destruct (last (select generated_image t2)); [reflexivity|exact H1].
Qed.

#[export] Instance stored_last_scopeless : Scopeless stored_last.
Proof.
  intros c s s' t. unfold stored_last, generated. by rewrite select_inside.
Qed.

#[export] Instance rendered_sequential : Sequential rendered.
Proof.
  split; unfold rendered, generated.
  - intros _ g Hg. by apply elem_of_nil in Hg.
  - intros _ _ _ t1 t2 H1 H2 g. rewrite select_app, actions_app.
    rewrite !elem_of_app. intros [Hg|Hg]; auto.
Qed.

#[export] Instance rendered_scopeless : Scopeless rendered.
Proof.
  intros c s s' t. unfold rendered, generated.
  by rewrite select_inside, actions_inside.
Qed.

Ltac stored_leaf :=
  unfold stored_last; session;
  rewrite ?lookup_insert_ne by done; reflexivity.

Ltac rendered_leaf :=
  let g := fresh in let Hg := fresh in
  intros g Hg; by apply elem_of_nil in Hg.

Section Output.
Context (env : Env).

Lemma prompt_and_generate_button_success prefix pipeline_name kwargs s d :
  generate_clicked env prefix = true →
  env_generate env (widget_call env prefix pipeline_name kwargs) = Some d →
  ∃ img copy,
    outcome (prompt_and_generate_button env prefix pipeline_name kwargs) s
    = Ok tt
    ∧ generated
        (trace (prompt_and_generate_button env prefix pipeline_name kwargs) s)
      = [img]
    ∧ data img = d
    ∧ session_state
        (final (prompt_and_generate_button env prefix pipeline_name kwargs) s)
      !! OUTPUT_IMAGE_KEY = Some copy
    ∧ data copy = d
    ∧ oid copy ≠ oid img
    ∧ last (trace (prompt_and_generate_button env prefix pipeline_name
                     kwargs) s)
      = Some {| scope := []; what := ShowImage img |}.
Proof.
  unfold generate_clicked, widget_call. intros Hclick Hgen.
  run. rewrite Hclick. run. rewrite Hgen. run.
  rewrite set_image_unprotected.
  2: { cbn. destruct (button_keys_unprotected prefix) as [Ho _]. exact Ho. }
  run. eexists _, _. repeat split; try reflexivity.
  - session. apply lookup_insert_eq.
  - reflexivity.
  - session. cbn [oid]. lia.
Qed.

(** What [prompt_and_generate_button] does when started after a log in
    which no widget has an image key. *)
Ltac run_button Ho :=
  run;
  destruct (env_button _ _ _); run;
  [ destruct (env_generate _ _); run;
    [ rewrite <- ?app_assoc;
      rewrite set_image_after;
      [ run
      | exact Ho
      | cbn; apply button_keys_unprotected ]
    | ]
  | ].

Lemma prompt_and_generate_button_stored prefix pipeline_name kwargs :
  stores stored_last
    (prompt_and_generate_button env prefix pipeline_name kwargs).
Proof.
  intros log s [Ho Hl]. unfold stored_last, unprotected. run_button Ho.
  - session. rewrite lookup_insert_eq.
    split; [reflexivity|]. split; [|discriminate].
    cbn. apply button_keys_unprotected.
  - split; [reflexivity|]. split; [|discriminate].
    cbn. apply button_keys_unprotected.
  - split; [reflexivity|]. split; [|discriminate].
    cbn. apply button_keys_unprotected.
Qed.

Lemma prompt_and_generate_button_rendered prefix pipeline_name kwargs :
  stores rendered (prompt_and_generate_button env prefix pipeline_name kwargs).
Proof.
  intros log s [Ho Hl]. unfold rendered, unprotected. run_button Ho.
  - split; [|split; [|discriminate]].
    + intros g Hg. apply list_elem_of_singleton in Hg as ->.
      apply list_elem_of_In. simpl. tauto.
    + cbn. apply button_keys_unprotected.
  - split; [|split; [|discriminate]].
    + intros g Hg. by apply elem_of_nil in Hg.
    + cbn. apply button_keys_unprotected.
  - split; [|split; [|discriminate]].
    + intros g Hg. by apply elem_of_nil in Hg.
    + cbn. apply button_keys_unprotected.
Qed.

Lemma main_stored_last : stores stored_last (main env).
Proof.
  stores_all
    ltac:(idtac;
          lazymatch goal with
          | |- stores _ (prompt_and_generate_button _ _ _ _) =>
              apply prompt_and_generate_button_stored
          end)
    stored_leaf.
Qed.

Lemma main_rendered : stores rendered (main env).
Proof.
  stores_all
    ltac:(idtac;
          lazymatch goal with
          | |- stores _ (prompt_and_generate_button _ _ _ _) =>
              apply prompt_and_generate_button_rendered
          end)
    rendered_leaf.
Qed.

Lemma main_sidebar_runs log s1 :
  session_state (final_at log (main_sidebar env) s1) !! OUTPUT_IMAGE_KEY
  = session_state s1 !! OUTPUT_IMAGE_KEY
  ∧ match session_state s1 !! OUTPUT_IMAGE_KEY with
    | Some c =>
        {| scope := []; what := ShowImage c |}
          ∈ trace_at log (main_sidebar env) s1
        ∧ select no_output_text (trace_at log (main_sidebar env) s1) = []
    | None =>
        select no_output_text (trace_at log (main_sidebar env) s1) = [tt]
    end.
Proof.
  run. destruct (session_state s1 !! OUTPUT_IMAGE_KEY) as [c|] eqn:Hc; run;
    [|by rewrite Hc].
  destruct (env_button env _ _); run.
  - unfold set_image. destruct (bool_decide _); run; session;
      rewrite ?lookup_insert_ne by done;
      (repeat split; try reflexivity; [done|]);
      apply list_elem_of_In; simpl; tauto.
  - repeat split; try reflexivity; [done|].
    apply list_elem_of_In. simpl. tauto.
Qed.

Lemma main_sidebar_shows s :
  sidebar_shows (final (main env) s) (trace (main env) s).
Proof.
  unfold sidebar_shows. rewrite final_main, trace_main.
  pose proof (main_tabs_quiet_header env [] s) as Hh.
  pose proof (main_tabs_quiet_text env [] s) as Ht.
  unfold quiet in Hh, Ht.
  fold (trace (main_tabs env) s) in Hh, Ht.
  destruct (outcome (main_tabs env) s) as [[]|e].
  2: { rewrite Hh. exact Ht. }
  rewrite !select_app, !select_inside, Hh, Ht, main_sidebar_header.
  destruct (main_sidebar_runs (trace (main_tabs env) s)
              (final (main_tabs env) s)) as (-> & Hshow).
  simpl.
  destruct (session_state (final (main_tabs env) s) !! OUTPUT_IMAGE_KEY)
    as [c|]; [|exact Hshow].
  destruct Hshow as [Hin Htext]. split; [|exact Htext].
  apply elem_of_app. right.
  apply (list_elem_of_fmap_2 (inside Sidebar)) in Hin. exact Hin.
Qed.
End Output.

(** C4, as the specification has it, fails: it is not the case that after
    every successful generation the sidebar shows the image generate
    returned last.  With a click in the txt2img tab and a text file in the
    uploader of the img2img tab, generate returns an image, a copy is stored
    and the image is rendered in the tab, and then Image.open raises in the
    img2img tab: the run ends before it gets to the sidebar, which shows
    neither the image nor the text. *)
Lemma generated_image_missing_from_sidebar :
  ¬ (∀ env s g,
       last (generated (trace (main env) s)) = Some g →
       ∃ c, {| scope := [Sidebar]; what := ShowImage c |} ∈ trace (main env) s
            ∧ data c = data g).
Proof.
  intros H.
  destruct (H interrupted_run empty_session
              {| oid := 0; data := demo_output |} eq_refl)
    as (c & Hin & _).
  apply list_elem_of_In in Hin. vm_compute in Hin.
  repeat (destruct Hin as [Hin|Hin]; [discriminate Hin|]). exact Hin.
Qed.

Example interrupted_run_has_no_sidebar :
  outcome (main interrupted_run) empty_session = Raise UnidentifiedImageError
  ∧ data <$> generated (trace (main interrupted_run) empty_session)
    = [demo_output]
  ∧ data <$> session_state (final (main interrupted_run) empty_session)
               !! OUTPUT_IMAGE_KEY
    = Some demo_output
  ∧ filter (λ e, scope e = [Sidebar])
      (trace (main interrupted_run) empty_session) = [].
Proof. vm_compute. done. Qed.

(** C4, amended: when the "Generate image" button reports a click and
    generate returns an image, prompt_and_generate_button stores a copy of
    it, a new object with the same contents, under the output-image key and
    shows the image with st.image as its last act.  Over a run of main the
    session ends up holding the contents of the last generated image under
    that key and every generated image is shown.  A run gets to the sidebar
    exactly when no tab raised; when it does, the sidebar shows the image
    stored under the output-image key, so the copy of the latest generated
    image, and it shows the text "No output generated yet" exactly when
    nothing is stored under that key; when a tab raised, the sidebar shows
    nothing. *)
Theorem output_image_stored_rendered_and_shown (env : Env) (s : State) :
  (∀ prefix pipeline_name kwargs d,
     generate_clicked env prefix = true →
     env_generate env (widget_call env prefix pipeline_name kwargs) = Some d →
     ∃ img copy,
       outcome (prompt_and_generate_button env prefix pipeline_name kwargs) s
       = Ok tt
       ∧ generated
           (trace (prompt_and_generate_button env prefix pipeline_name
                     kwargs) s)
         = [img]
       ∧ data img = d
       ∧ session_state
           (final (prompt_and_generate_button env prefix pipeline_name
                     kwargs) s)
         !! OUTPUT_IMAGE_KEY = Some copy
       ∧ data copy = d
       ∧ oid copy ≠ oid img
       ∧ last (trace (prompt_and_generate_button env prefix pipeline_name
                        kwargs) s)
         = Some {| scope := []; what := ShowImage img |})
  ∧ stored_last s (final (main env) s) (trace (main env) s)
  ∧ rendered s (final (main env) s) (trace (main env) s)
  ∧ select sidebar_header (trace (main env) s)
    = match outcome (main env) s with
      | Ok _ | Raise RerunException => [tt]
      | Raise _ => []
      end
  ∧ sidebar_shows (final (main env) s) (trace (main env) s)
  ∧ (∀ g,
       last (generated (trace (main env) s)) = Some g →
       select sidebar_header (trace (main env) s) ≠ [] →
       ∃ c,
         {| scope := [Sidebar]; what := ShowImage c |} ∈ trace (main env) s
         ∧ data c = data g).
Proof.
  pose proof (proj1 (main_stored_last env [] s unprotected_nil)) as Hstored.
  pose proof (main_sidebar_shows env s) as Hshows.
  split; [intros; by apply prompt_and_generate_button_success|].
  split; [exact Hstored|].
  split; [apply (main_rendered env [] s unprotected_nil)|].
  split; [apply main_reaches_sidebar|].
  split; [exact Hshows|].
  intros g Hlast Hreached.
  unfold stored_last in Hstored. unfold sidebar_shows in Hshows.
  fold (trace (main env) s) in Hstored.
  fold (final (main env) s) in Hstored.
  rewrite Hlast in Hstored.
  destruct (select sidebar_header (trace (main env) s)); [done|].
  destruct (session_state (final (main env) s) !! OUTPUT_IMAGE_KEY)
    as [c|]; [|discriminate].
  exists c. split; [apply Hshows|]. by injection Hstored.
Qed.

Lemma output_image_stored_rendered_and_shown_witness :
  ∃ c, {| scope := [Sidebar]; what := ShowImage c |}
         ∈ trace (main txt2img_run) empty_session
       ∧ data c = demo_output.
Proof.
  apply (proj2 (proj2 (proj2 (proj2 (proj2
           (output_image_stored_rendered_and_shown
              txt2img_run empty_session)))))
           {| oid := 0; data := demo_output |}).
  - reflexivity.
  - intros H. vm_compute in H. discriminate H.
Defined.

Example txt2img_run_sidebar :
  what <$> filter (λ e, scope e = [Sidebar])
             (trace (main txt2img_run) empty_session)
  = [Header "Latest Output Image";
     ShowImage {| oid := 1; data := demo_output |};
     Button "Use this image for inpainting and img2img" None false].
Proof. vm_compute. reflexivity. Qed.

Example upload_only_sidebar :
  what <$> filter (λ e, scope e = [Sidebar])
             (trace (main upload_only_run) empty_session)
  = [Header "Latest Output Image"; Markdown "No output generated yet"].
Proof. vm_compute. reflexivity. Qed.

(** * Further properties of the script *)

(** ** The sidebar's button *)

(** X4: with an output image in the session and a click on "Use this image
    for inpainting and img2img", the sidebar stores a copy of the output
    image, a new object with the same contents, under the loaded-image key,
    keeps the output image, and ends the run with st.experimental_rerun;
    without the click it returns and the session is as before; without an
    output image the button is not laid out and the session is as before. *)
Theorem main_sidebar_use_button (env : Env) (s : State) :
  (∀ c,
     session_state s !! OUTPUT_IMAGE_KEY = Some c →
     env_button env "Use this image for inpainting and img2img" None = true →
     outcome (main_sidebar env) s = Raise RerunException
     ∧ session_state (final (main_sidebar env) s) !! LOADED_IMAGE_KEY
       = Some {| oid := next_oid s; data := data c |}
     ∧ session_state (final (main_sidebar env) s) !! OUTPUT_IMAGE_KEY
       = Some c
     ∧ last (trace (main_sidebar env) s)
       = Some {| scope := []; what := ExperimentalRerun |})
  ∧ (∀ c,
       session_state s !! OUTPUT_IMAGE_KEY = Some c →
       env_button env "Use this image for inpainting and img2img" None
       = false →
       outcome (main_sidebar env) s = Ok tt
       ∧ final (main_sidebar env) s = s)
  ∧ (session_state s !! OUTPUT_IMAGE_KEY = None →
     outcome (main_sidebar env) s = Ok tt
     ∧ final (main_sidebar env) s = s
     ∧ trace (main_sidebar env) s
       = [ {| scope := []; what := Header "Latest Output Image" |};
           {| scope := []; what := Markdown "No output generated yet" |} ]).
Proof.
  split; [|split].
  - intros c Hc Hclick. run. rewrite Hc. run. rewrite Hclick. run.
    rewrite set_image_unprotected by (cbn; apply not_elem_of_nil). run.
    session. rewrite lookup_insert_eq, lookup_insert_ne by done. done.
  - intros c Hc Hclick. run. rewrite Hc. run. rewrite Hclick. run. done.
  - intros Hc. run. rewrite Hc. run. done.
Qed.

Lemma main_sidebar_use_button_witness :
  outcome (main_sidebar use_output_run) output_session
  = Raise RerunException
  ∧ session_state (final (main_sidebar use_output_run) output_session)
      !! LOADED_IMAGE_KEY
    = Some {| oid := 4; data := demo_output |}.
Proof.
  destruct (proj1 (main_sidebar_use_button use_output_run output_session)
              {| oid := 3; data := demo_output |} eq_refl eq_refl)
    as (Hout & Hloaded & _).
  split; assumption.
Defined.

(** ** From the sidebar to the uploaders of the next run *)

Lemma main_sidebar_rerun env log s :
  outcome_at log (main_sidebar env) s = Raise RerunException →
  ∃ c,
    session_state s !! OUTPUT_IMAGE_KEY = Some c
    ∧ session_state (final_at log (main_sidebar env) s) !! OUTPUT_IMAGE_KEY
      = Some c
    ∧ session_state (final_at log (main_sidebar env) s) !! LOADED_IMAGE_KEY
      = Some {| oid := next_oid s; data := data c |}.
Proof.
  run. destruct (session_state s !! OUTPUT_IMAGE_KEY) as [c|] eqn:Hc; run;
    [|discriminate].
  destruct (env_button env _ _); run; [|discriminate].
  unfold set_image. destruct (bool_decide _); run; [discriminate|].
  intros _. exists c. session.
  by rewrite lookup_insert_eq, lookup_insert_ne.
Qed.

(** X6: when a run of main ends in st.experimental_rerun, the session holds
    an output image, and in the next run image_uploader, for every prefix
    (inpainting, img2img and also upscale) and whatever width and height it
    is asked for, returns a copy of that output image with the same
    contents, not resized, as long as no file is in its uploader. *)
Theorem loaded_image_reaches_every_uploader (env env' : Env)
    (prefix : string) (width height : Z) (s : State) :
  outcome (main env) s = Raise RerunException →
  env_file_uploader env' "Image" ["jpg"; "png"] (prefix +:+ "-uploader")
  = None →
  ∃ c img,
    session_state (final (main env) s) !! OUTPUT_IMAGE_KEY = Some c
    ∧ outcome (image_uploader env' prefix width height) (final (main env) s)
      = Ok (Some img)
    ∧ data img = data c
    ∧ pil_calls "resize"
        (trace (image_uploader env' prefix width height) (final (main env) s))
      = [].
Proof.
  intros Hrerun Hfile. rewrite outcome_main in Hrerun. rewrite final_main.
  pose proof (main_tabs_never_rerun env [] s) as Hnever.
  fold (outcome (main_tabs env) s) in Hnever.
  destruct (outcome (main_tabs env) s) as [[]|e].
  2: { injection Hrerun as ->. by destruct (Hnever _ eq_refl). }
  destruct (main_sidebar_rerun env _ _ Hrerun) as (c & _ & Hout & Hloaded).
  destruct (image_uploader_no_file env' prefix width height
              (final_at (trace (main_tabs env) s) (main_sidebar env)
                 (final (main_tabs env) s)) Hfile)
    as (Hup & _ & Htrace).
  eexists c, _. split; [exact Hout|]. split; [by rewrite Hup, Hloaded|].
  split; [reflexivity|]. by rewrite Htrace.
Qed.

Lemma loaded_image_reaches_every_uploader_witness :
  ∃ c img,
    session_state (final (main use_output_run) output_session)
      !! OUTPUT_IMAGE_KEY = Some c
    ∧ outcome (image_uploader use_output_run "upscale" 256 256)
        (final (main use_output_run) output_session)
      = Ok (Some img)
    ∧ data img = data c
    ∧ pil_calls "resize"
        (trace (image_uploader use_output_run "upscale" 256 256)
           (final (main use_output_run) output_session))
      = [].
Proof.
  apply (loaded_image_reaches_every_uploader use_output_run use_output_run
           "upscale" 256 256 output_session); reflexivity.
Defined.

Example use_output_run_upscale :
  outcome (image_uploader use_output_run "upscale" 256 256)
    (final (main use_output_run) output_session)
  = Ok (Some {| oid := 4; data := demo_output |}).
Proof. vm_compute. reflexivity. Qed.

(** ** Sizes *)

Section Sizes.
Context (env : Env) (s : State).

Lemma img2img_tab_upload file d :
  env_file_uploader env "Image" ["jpg"; "png"] "img2img-uploader"
  = Some file →
  file_image file = Some d →
  generate_clicked env "img2img" = true →
  ∃ img,
    generate_calls (trace (img2img_tab env) s)
    = [widget_call env "img2img" "img2img" [("image_input", PyImage img)]]
    ∧ img_width img = 512 ∧ img_height img = 512
    ∧ Image.pixels (data img)
      = Resampled (Image.width d) (Image.height d) (Image.pixels d).
Proof.
  intros Hfile Hd Hclick.
  destruct (img2img_tab_calls_upload env s d) as (img & -> & Himg);
    [by exists file|].
  exists img. unfold expected_calls. rewrite Hclick.
  unfold img_width, img_height. by rewrite Himg.
Qed.

Lemma upscale_tab_upload file d :
  env_file_uploader env "Image" ["jpg"; "png"] "upscale-uploader"
  = Some file →
  file_image file = Some d →
  generate_clicked env "upscale" = true →
  ∃ img,
    generate_calls (trace (upscale_tab env) s)
    = [widget_call env "upscale" "upscale" [("image_input", PyImage img)]]
    ∧ img_width img = 256 ∧ img_height img = 256
    ∧ Image.pixels (data img)
      = Resampled (Image.width d) (Image.height d) (Image.pixels d).
Proof.
  intros Hfile Hd Hclick.
  destruct (upscale_tab_calls_upload env s d) as (img & -> & Himg);
    [by exists file|].
  exists img. unfold expected_calls. rewrite Hclick.
  unfold img_width, img_height. by rewrite Himg.
Qed.

Lemma inpainting_upload file d image mask :
  env_file_uploader env "Image" ["jpg"; "png"] "inpainting-uploader"
  = Some file →
  file_image file = Some d →
  outcome (inpainting env) s = Ok (Some image, Some mask) →
  img_width image = 512 ∧ img_height image = 512.
Proof.
  intros Hfile Hd Hout.
  destruct (inpainting_returns env s _ _ Hout)
    as [[? _]|(image' & mask' & args & drawing & [= <-] & _ & Hup & _)];
    [discriminate|].
  rewrite (image_uploader_upload env s "inpainting" DEFAULT_WIDTH
             DEFAULT_HEIGHT d) in Hup.
  - by injection Hup as <-.
  - by exists file.
  - apply resize_accepts_512.
  - apply resize_accepts_512.
Qed.
End Sizes.

(** X8: an uploaded picture reaches generate at a fixed size, whatever its
    own size: with a readable file in its uploader and a click, the img2img
    tab calls generate with an image_input of 512x512 and the upscale tab
    with one of 256x256, both resampled from the file; and the image that
    inpainting returns from an upload, which its tab passes on as
    image_input, is 512x512. *)
Theorem uploads_reach_generate_at_fixed_sizes (env : Env) (s : State) :
  (∀ file d,
     env_file_uploader env "Image" ["jpg"; "png"] "img2img-uploader"
     = Some file →
     file_image file = Some d →
     generate_clicked env "img2img" = true →
     ∃ img,
       generate_calls (trace (img2img_tab env) s)
       = [widget_call env "img2img" "img2img" [("image_input", PyImage img)]]
       ∧ img_width img = 512 ∧ img_height img = 512
       ∧ Image.pixels (data img)
         = Resampled (Image.width d) (Image.height d) (Image.pixels d))
  ∧ (∀ file d,
       env_file_uploader env "Image" ["jpg"; "png"] "upscale-uploader"
       = Some file →
       file_image file = Some d →
       generate_clicked env "upscale" = true →
       ∃ img,
         generate_calls (trace (upscale_tab env) s)
         = [widget_call env "upscale" "upscale"
              [("image_input", PyImage img)]]
         ∧ img_width img = 256 ∧ img_height img = 256
         ∧ Image.pixels (data img)
           = Resampled (Image.width d) (Image.height d) (Image.pixels d))
  ∧ (∀ file d image mask,
       env_file_uploader env "Image" ["jpg"; "png"] "inpainting-uploader"
       = Some file →
       file_image file = Some d →
       outcome (inpainting env) s = Ok (Some image, Some mask) →
       img_width image = 512 ∧ img_height image = 512).
Proof.
  split; [apply img2img_tab_upload|].
  split; [apply upscale_tab_upload|].
  apply inpainting_upload.
Qed.

Lemma uploads_reach_generate_at_fixed_sizes_witness :
  ∃ img,
    generate_calls (trace (img2img_tab img2img_run) empty_session)
    = [widget_call img2img_run "img2img" "img2img"
         [("image_input", PyImage img)]]
    ∧ img_width img = 512 ∧ img_height img = 512
    ∧ Image.pixels (data img) = Resampled 640 480 (Opaque 0).
Proof.
  apply (proj1 (uploads_reach_generate_at_fixed_sizes
                  img2img_run empty_session)
           demo_file demo_picture); reflexivity.
Defined.

(** ** The canvas *)

#[export] Instance all_selected_sequential {B} (f : Action → option B) P :
  Sequential (all_selected f P).
Proof.
  split; unfold all_selected.
  - intros _. constructor.
  - intros _ _ _ t1 t2 H1 H2. rewrite select_app. by apply Forall_app.
Qed.

#[export] Instance all_selected_scopeless {B} (f : Action → option B) P :
  Scopeless (all_selected f P).
Proof. intros c s s' t. unfold all_selected. by rewrite select_inside. Qed.

Lemma main_canvas_fits env :
  keeps (all_selected canvas_call canvas_fits) (main env).
Proof. keeps_all idtac ltac:(repeat constructor). Qed.

Lemma alpha_positive_shape (drawing : list (list RGBA)) :
  length (alpha_positive drawing) = length drawing
  ∧ length (default [] (head (alpha_positive drawing)))
    = length (default [] (head drawing)).
Proof.
  unfold alpha_positive. split; [apply length_map|].
  destruct drawing as [|row drawing]; [reflexivity|]. apply length_map.
Qed.

Lemma inpainting_geometry env s image mask :
  outcome (inpainting env) s = Ok (Some image, Some mask) →
  ∃ args drawing,
    env_canvas env args = Some {| image_data := Some drawing |}
    ∧ background_image args = image
    ∧ canvas_fits args
    ∧ stroke_width args = env_number_input env "Brush Size" 50 1 100
    ∧ img_height mask = Z.of_nat (length drawing)
    ∧ img_width mask = Z.of_nat (length (default [] (head drawing))).
Proof.
  unfold inpainting. rewrite outcome_bind.
  destruct (outcome (image_uploader env "inpainting" _ _) s)
    as [[image'|]|e]; [| |discriminate].
  2: { run. discriminate. }
  cbv beta iota.
  generalize (final (image_uploader env "inpainting" DEFAULT_WIDTH
                       DEFAULT_HEIGHT) s).
  generalize (trace (image_uploader env "inpainting" DEFAULT_WIDTH
                       DEFAULT_HEIGHT) s).
  intros log1 s1. run.
  match goal with
  | |- context [env_canvas env ?a] =>
      set (args := a);
      destruct (env_canvas env args) as [[[drawing|]]|] eqn:Hc
  end; run; try discriminate.
  destruct (0 <? mask_sum (alpha_positive drawing)); run; [|discriminate].
  intros [= <- <-]. exists args, drawing.
  destruct (alpha_positive_shape drawing) as [Hrows Hcols].
  split; [exact Hc|]. split; [reflexivity|]. split; [by split|].
  split; [reflexivity|]. split.
  - change (Z.of_nat (length (alpha_positive drawing))
            = Z.of_nat (length drawing)). by rewrite Hrows.
  - change (Z.of_nat (length (default [] (head (alpha_positive drawing))))
            = Z.of_nat (length (default [] (head drawing)))).
    by rewrite Hcols.
Qed.

(** X9: every canvas a run of main lays out is exactly as wide and as high
    as the image behind it; and when inpainting returns an image and a mask,
    that image is the background of the canvas, the stroke width is the
    value of the brush-size input, and the mask has the shape of the
    drawing the canvas gave: as many rows, and as wide as its first row. *)
Theorem canvas_fits_image_and_mask_fits_drawing (env : Env) (s : State) :
  Forall canvas_fits (select canvas_call (trace (main env) s))
  ∧ (∀ image mask,
       outcome (inpainting env) s = Ok (Some image, Some mask) →
       ∃ args drawing,
         env_canvas env args = Some {| image_data := Some drawing |}
         ∧ background_image args = image
         ∧ canvas_fits args
         ∧ stroke_width args = env_number_input env "Brush Size" 50 1 100
         ∧ img_height mask = Z.of_nat (length drawing)
         ∧ img_width mask = Z.of_nat (length (default [] (head drawing)))).
Proof.
  split; [apply (main_canvas_fits env [] s)|]. apply inpainting_geometry.
Qed.

Example inpainting_run_canvas :
  (λ args, (canvas_width args, canvas_height args, stroke_width args))
    <$> select canvas_call (trace (main inpainting_run) empty_session)
  = [(512, 512, 50)].
Proof. vm_compute. reflexivity. Qed.

Example inpainting_run_mask :
  (λ img, (img_width img, img_height img, Image.pixels (data img)))
    <$> select (λ a, match a with
                     | Pil "fromarray" _ (Some r) => Some r
                     | _ => None
                     end)
          (trace (main inpainting_run) empty_session)
  = [(2, 1, Bilevel [[true; false]])].
Proof. vm_compute. reflexivity. Qed.

(** ** What a run writes to the session *)

#[export] Instance touches_only_sequential : Sequential touches_only.
Proof.
  split; unfold touches_only.
  - done.
  - intros s1 s2 s3 _ _ H1 H2 k Ho Hl. by rewrite H2, H1.
Qed.

#[export] Instance touches_only_scopeless : Scopeless touches_only.
Proof. intros c s s' t H. exact H. Qed.

#[export] Instance never_forgets_sequential : Sequential never_forgets.
Proof.
  split; unfold never_forgets.
  - done.
  - intros s1 s2 s3 _ _ H1 H2 k Hk. by apply H2, H1.
Qed.

#[export] Instance never_forgets_scopeless : Scopeless never_forgets.
Proof. intros c s s' t H. exact H. Qed.

#[export] Instance output_kept_sequential : Sequential output_kept.
Proof.
  split; unfold output_kept, generated.
  - done.
  - intros s1 s2 s3 t1 t2 H1 H2. rewrite select_app.
    intros [Ht1 Ht2]%app_eq_nil. by rewrite H2, H1.
Qed.

#[export] Instance output_kept_scopeless : Scopeless output_kept.
Proof.
  intros c s s' t. unfold output_kept, generated. by rewrite select_inside.
Qed.

#[export] Instance loaded_kept_sequential : Sequential loaded_kept.
Proof.
  split; unfold loaded_kept.
  - done.
  - intros s1 s2 s3 t1 t2 H1 H2. rewrite select_app.
    intros [Ht1 Ht2]%app_eq_nil. by rewrite H2, H1.
Qed.

#[export] Instance loaded_kept_scopeless : Scopeless loaded_kept.
Proof. intros c s s' t. unfold loaded_kept. by rewrite select_inside. Qed.

#[export] Instance registers_sequential : Sequential registers.
Proof.
  split; unfold registers.
  - intros s k. by rewrite bool_decide_eq_false_2 by apply not_elem_of_nil.
  - intros s1 s2 s3 t1 t2 H1 H2 k. specialize (H1 k). specialize (H2 k).
    rewrite select_app. repeat case_bool_decide;
      rewrite ?elem_of_app in *; try tauto.
    + by rewrite H2.
    + by rewrite H2.
Qed.

#[export] Instance registers_scopeless : Scopeless registers.
Proof. intros c s s' t. unfold registers. by rewrite select_inside. Qed.

Lemma registers_widget key v a s :
  widget_key a = Some key →
  registers s (set_widget key v s) [ {| scope := []; what := a |} ].
Proof.
  intros Ha k. unfold select. cbn. rewrite Ha. cbn. session.
  case_bool_decide as Hk.
  - apply list_elem_of_singleton in Hk as ->. by rewrite lookup_insert_eq.
  - apply lookup_insert_ne. intros ->. apply Hk. by apply list_elem_of_singleton.
Qed.

Lemma registers_no_widget a s s' :
  widget_key a = None →
  widget_state s' = widget_state s →
  registers s s' [ {| scope := []; what := a |} ].
Proof.
  intros Ha Hs k. unfold select. cbn. rewrite Ha. cbn.
  by rewrite bool_decide_eq_false_2, Hs by apply not_elem_of_nil.
Qed.

Lemma registers_nothing s s' :
  widget_state s' = widget_state s → registers s s' [].
Proof.
  intros Hs k.
  by rewrite bool_decide_eq_false_2, Hs by apply not_elem_of_nil.
Qed.

Ltac touches_leaf :=
  unfold touches_only; session;
  let k := fresh in let Ho := fresh in let Hl := fresh in
  intros k Ho Hl; rewrite ?lookup_insert_ne by done; reflexivity.

Ltac forgets_leaf :=
  unfold never_forgets; session;
  let k := fresh in let Hk := fresh in
  intros k Hk; rewrite ?lookup_insert_is_Some'; auto.

Ltac kept_leaf :=
  unfold output_kept, loaded_kept; session;
  let H := fresh in
  intros H; rewrite ?lookup_insert_ne by done; first [reflexivity | done].

Ltac registers_leaf :=
  first [ by apply registers_nothing
        | by apply registers_no_widget ].

Section Writes.
Context (env : Env).

Lemma main_touches_only : keeps touches_only (main env).
Proof. keeps_all idtac touches_leaf. Qed.

Lemma main_never_forgets : keeps never_forgets (main env).
Proof. keeps_all idtac forgets_leaf. Qed.

Lemma prompt_and_generate_button_output_kept prefix pipeline_name kwargs :
  keeps output_kept
    (prompt_and_generate_button env prefix pipeline_name kwargs).
Proof.
  intros log s. unfold output_kept. run.
  destruct (env_button env _ _); run; [|done].
  destruct (env_generate env _); run; [|done].
  unfold set_image. destruct (bool_decide _); done.
Qed.

Lemma main_output_kept : keeps output_kept (main env).
Proof.
  keeps_all
    ltac:(idtac;
          lazymatch goal with
          | |- keeps _ (prompt_and_generate_button _ _ _ _) =>
              apply prompt_and_generate_button_output_kept
          end)
    kept_leaf.
Qed.

Lemma main_sidebar_loaded_kept : keeps loaded_kept (main_sidebar env).
Proof.
  intros log s. unfold loaded_kept. run.
  destruct (session_state s !! OUTPUT_IMAGE_KEY); run; [|done].
  destruct (env_button env _ _); run; [|done].
  unfold set_image. destruct (bool_decide _); done.
Qed.

Lemma main_loaded_kept : keeps loaded_kept (main env).
Proof.
  keeps_all
    ltac:(idtac;
          lazymatch goal with
          | |- keeps _ (main_sidebar _) => apply main_sidebar_loaded_kept
          end)
    kept_leaf.
Qed.

Lemma text_area_registers label value key :
  keeps registers (st.text_area env label value key).
Proof. intros log s. by apply registers_widget. Qed.

Lemma slider_int_registers label spec key :
  keeps registers (st.slider_int env label spec key).
Proof. intros log s. by apply registers_widget. Qed.

Lemma slider_float_registers label spec key :
  keeps registers (st.slider_float env label spec key).
Proof. intros log s. by apply registers_widget. Qed.

Lemma button_registers label key :
  keeps registers (st.button env label key).
Proof.
  intros log s. destruct key as [key|].
  - by apply registers_widget.
  - by apply registers_no_widget.
Qed.

Lemma file_uploader_registers label types key :
  keeps registers (st.file_uploader env label types key).
Proof. intros log s. by apply registers_widget. Qed.

Lemma st_canvas_registers args :
  keeps registers (st.st_canvas env args).
Proof. intros log s. by apply registers_widget. Qed.

Lemma main_registers : keeps registers (main env).
Proof.
  keeps_all
    ltac:(idtac;
          lazymatch goal with
          | |- keeps _ (st.text_area _ _ _ _) => apply text_area_registers
          | |- keeps _ (st.slider_int _ _ _ _) => apply slider_int_registers
          | |- keeps _ (st.slider_float _ _ _ _) =>
              apply slider_float_registers
          | |- keeps _ (st.button _ _ _) => apply button_registers
          | |- keeps _ (st.file_uploader _ _ _ _) =>
              apply file_uploader_registers
          | |- keeps _ (st.st_canvas _ _) => apply st_canvas_registers
          end)
    registers_leaf.
Qed.
End Writes.

(** X2: a run of main, however it ends, stores images only under the
    output-image key and the loaded-image key and removes none; the object
    under the output-image key is replaced only in a run in which generate
    returned an image, the object under the loaded-image key only in a run
    that called st.experimental_rerun.  Of the values of widgets, the
    session holds, when main ends, one under the key of every keyed widget
    the run laid out, and main leaves those under every other key as they
    were, so that it changes none outside the 26 widget keys of the
    script. *)
Theorem main_writes_two_keys_only (env : Env) (s : State) :
  (∀ k, k ≠ OUTPUT_IMAGE_KEY → k ≠ LOADED_IMAGE_KEY →
     session_state (final (main env) s) !! k = session_state s !! k)
  ∧ (∀ k, is_Some (session_state s !! k) →
       is_Some (session_state (final (main env) s) !! k))
  ∧ (generated (trace (main env) s) = [] →
     session_state (final (main env) s) !! OUTPUT_IMAGE_KEY
     = session_state s !! OUTPUT_IMAGE_KEY)
  ∧ (select rerun_call (trace (main env) s) = [] →
     session_state (final (main env) s) !! LOADED_IMAGE_KEY
     = session_state s !! LOADED_IMAGE_KEY)
  ∧ (∀ k, k ∈ select widget_key (trace (main env) s) →
       is_Some (widget_state (final (main env) s) !! k))
  ∧ (∀ k, k ∉ select widget_key (trace (main env) s) →
       widget_state (final (main env) s) !! k = widget_state s !! k)
  ∧ (∀ k, k ∉ main_keys →
       widget_state (final (main env) s) !! k = widget_state s !! k).
Proof.
  pose proof (main_registers env [] s) as Hreg. unfold registers in Hreg.
  fold (final (main env) s) in Hreg. fold (trace (main env) s) in Hreg.
  assert (Hout : ∀ k, k ∉ select widget_key (trace (main env) s) →
            widget_state (final (main env) s) !! k = widget_state s !! k).
  { intros k Hk. specialize (Hreg k).
    by rewrite bool_decide_eq_false_2 in Hreg. }
  split; [apply (main_touches_only env [] s)|].
  split; [apply (main_never_forgets env [] s)|].
  split; [apply (main_output_kept env [] s)|].
  split; [apply (main_loaded_kept env [] s)|].
  split.
  { intros k Hk. specialize (Hreg k).
    by rewrite bool_decide_eq_true_2 in Hreg. }
  split; [exact Hout|].
  intros k Hk. apply Hout. intros Hin. apply Hk.
  eapply elem_of_sublist; [exact Hin|apply (main_within env [] s)].
Qed.

Example no_click_run_registers :
  length (map_to_list (widget_state
                         (final (main (plain_env (λ _ _, false) (λ _, None)
                                         (Some demo_output)))
                            empty_session)))
  = 15%nat.
Proof. vm_compute. reflexivity. Qed.

(** ** Without a generated image *)

(** X3: unless generate returns an image, prompt_and_generate_button
    stores nothing: the images of the session are as before and the only
    change to the session is that it holds the values of the five widgets.
    Without a click it returns normally and calls neither generate nor
    st.image; with a click and a failing pipeline the exception leaves the
    function, nothing is copied and no image is shown. *)
Theorem prompt_and_generate_button_without_image (env : Env)
    (prefix pipeline_name : string) (kwargs : list (string * PyVal))
    (s : State) :
  (generate_clicked env prefix = false →
   outcome (prompt_and_generate_button env prefix pipeline_name kwargs) s
   = Ok tt
   ∧ final (prompt_and_generate_button env prefix pipeline_name kwargs) s
     = {| session_state := session_state s;
          widget_state := button_widgets env prefix (widget_state s);
          next_oid := next_oid s |}
   ∧ generate_calls
       (trace (prompt_and_generate_button env prefix pipeline_name kwargs) s)
     = []
   ∧ select shown_image
       (trace (prompt_and_generate_button env prefix pipeline_name kwargs) s)
     = [])
  ∧ (generate_clicked env prefix = true →
     env_generate env (widget_call env prefix pipeline_name kwargs) = None →
     outcome (prompt_and_generate_button env prefix pipeline_name kwargs) s
     = Raise PipelineError
     ∧ final (prompt_and_generate_button env prefix pipeline_name kwargs) s
       = {| session_state := session_state s;
            widget_state := button_widgets env prefix (widget_state s);
            next_oid := next_oid s |}
     ∧ pil_calls "copy"
         (trace (prompt_and_generate_button env prefix pipeline_name kwargs)
            s)
       = []
     ∧ select shown_image
         (trace (prompt_and_generate_button env prefix pipeline_name kwargs)
            s)
       = []).
Proof.
  unfold button_widgets, generate_clicked, widget_call. split.
  - intros Hclick. run. rewrite Hclick. run. done.
  - intros Hclick Hgen. run. rewrite Hclick. run. rewrite Hgen. run. done.
Qed.

Lemma prompt_and_generate_button_without_image_witness :
  outcome (prompt_and_generate_button failing_run "txt2img" "txt2img" [])
    output_session
  = Raise PipelineError
  ∧ session_state
      (final (prompt_and_generate_button failing_run "txt2img" "txt2img" [])
         output_session)
    = session_state output_session.
Proof.
  destruct (proj2 (prompt_and_generate_button_without_image
                     failing_run "txt2img" "txt2img" [] output_session)
              eq_refl eq_refl) as (Hout & Hfinal & _).
  split; [exact Hout|]. by rewrite Hfinal.
Defined.

(** ** How a run ends *)


Section Endings.
Context (env : Env).



End Endings.

#[export] Instance outside_sidebar_sequential : Sequential outside_sidebar.
Proof.
  split; unfold outside_sidebar.
  - intros _. constructor.
  - intros _ _ _ t1 t2 H1 H2. by apply Forall_app.
Qed.





Example failing_run_stops :
  outcome (main failing_run) output_session = Raise PipelineError
  ∧ select sidebar_header (trace (main failing_run) output_session) = []
  ∧ session_state (final (main failing_run) output_session)
    = session_state output_session.
Proof. vm_compute. done. Qed.

Example unreadable_run_stops :
  outcome (main unreadable_run) empty_session = Raise UnidentifiedImageError
  ∧ select generate_button (trace (main unreadable_run) empty_session)
    = [Some "txt2img-btn"].
Proof. vm_compute. done. Qed.

Example truncated_run_stops :
  outcome (main truncated_run) empty_session = Raise OSError
  ∧ select printed (trace (main truncated_run) empty_session)
    = ["loaded input image of size (640, 480)"]
  ∧ select sidebar_header (trace (main truncated_run) empty_session) = [].
Proof. vm_compute. done. Qed.

(** ** Runs without a click *)

#[export] Instance images_same_sequential : Sequential images_same.
Proof.
  split; unfold images_same.
  - done.
  - intros s1 s2 s3 _ _ H1 H2. by rewrite H2.
Qed.

#[export] Instance images_same_scopeless : Scopeless images_same.
Proof. intros c s s' t H. exact H. Qed.

Section NoClick.
Context (env : Env).
Context (Hno : ∀ label key, env_button env label key = false).






End NoClick.



(** ** What an upload leaves in the log *)

Section Opening.
Context (env : Env) (prefix : string) (width height : Z) (s : State).
Context (file : UploadedFile).
Context (Hfile : upload env prefix = Some file).

Lemma image_uploader_text_file :
  file_image file = None → file_header file = None →
  outcome (image_uploader env prefix width height) s
  = Raise UnidentifiedImageError
  ∧ pil_calls "open" (trace (image_uploader env prefix width height) s)
    = [(None, None)]
  ∧ select printed (trace (image_uploader env prefix width height) s) = []
  ∧ pil_calls "resize" (trace (image_uploader env prefix width height) s)
    = [].
Proof.
  revert Hfile. unfold upload. intros Hfile Hd Hh.
  run. rewrite Hfile. run. rewrite Hd, Hh. run. done.
Qed.

Lemma image_uploader_truncated_file w h :
  file_image file = None → file_header file = Some (w, h) →
  outcome (image_uploader env prefix width height) s = Raise OSError
  ∧ pil_calls "open" (trace (image_uploader env prefix width height) s)
    = [(None,
        Some {| oid := next_oid s;
                data := {| Image.width := w; Image.height := h;
                           Image.pixels := Pending |} |})]
  ∧ select printed (trace (image_uploader env prefix width height) s)
    = [size_line w h]
  ∧ pil_calls "resize" (trace (image_uploader env prefix width height) s)
    = [(Some {| oid := next_oid s;
                data := {| Image.width := w; Image.height := h;
                           Image.pixels := Pending |} |},
        None)].
Proof.
  revert Hfile. unfold upload. intros Hfile Hd Hh.
  run. rewrite Hfile. run. rewrite Hd, Hh. run.
  rewrite Image_resize_undecodable by done. run. done.
Qed.

Lemma image_uploader_refused_size d e :
  file_image file = Some d → size_error width height = Some e →
  outcome (image_uploader env prefix width height) s = Raise e
  ∧ select printed (trace (image_uploader env prefix width height) s)
    = [size_line (Image.width d) (Image.height d)]
  ∧ pil_calls "resize" (trace (image_uploader env prefix width height) s)
    = [(Some {| oid := next_oid s; data := d |}, None)].
Proof.
  revert Hfile. unfold upload. intros Hfile Hd He.
  run. rewrite Hfile. run. rewrite Hd. run.
  rewrite (Image_resize_refuses _ _ _ _ _ e) by done. run. done.
Qed.

Lemma image_uploader_decoded_file d :
  file_image file = Some d →
  resize_accepts width → resize_accepts height →
  select printed (trace (image_uploader env prefix width height) s)
  = [size_line (Image.width d) (Image.height d)].
Proof.
  revert Hfile. unfold upload. intros Hfile Hd Hw Hh.
  run. rewrite Hfile. run. rewrite Hd. run.
  rewrite Image_resize_accepts by done. run. done.
Qed.
End Opening.

(** X11: image_uploader opens an upload before it resizes it, and prints
    the size in between.  For a file that is no image, Image.open raises
    UnidentifiedImageError: nothing is printed and resize is not called.
    For an image file whose data cannot be decoded, Image.open succeeds, the
    size of the header is printed, and resize raises OSError.  For a
    decodable image and a size that resize refuses, the size of the image is
    printed and resize raises OverflowError or ValueError; for a size that
    resize accepts, the printed size is that of the upload, not the size
    asked for. *)
Theorem image_uploader_opens_prints_resizes (env : Env) (prefix : string)
    (width height : Z) (s : State) (file : UploadedFile) :
  upload env prefix = Some file →
  (file_image file = None → file_header file = None →
   outcome (image_uploader env prefix width height) s
   = Raise UnidentifiedImageError
   ∧ pil_calls "open" (trace (image_uploader env prefix width height) s)
     = [(None, None)]
   ∧ select printed (trace (image_uploader env prefix width height) s) = []
   ∧ pil_calls "resize" (trace (image_uploader env prefix width height) s)
     = [])
  ∧ (∀ w h,
       file_image file = None → file_header file = Some (w, h) →
       outcome (image_uploader env prefix width height) s = Raise OSError
       ∧ pil_calls "open" (trace (image_uploader env prefix width height) s)
         = [(None,
             Some {| oid := next_oid s;
                     data := {| Image.width := w; Image.height := h;
                                Image.pixels := Pending |} |})]
       ∧ select printed (trace (image_uploader env prefix width height) s)
         = [size_line w h]
       ∧ pil_calls "resize"
           (trace (image_uploader env prefix width height) s)
         = [(Some {| oid := next_oid s;
                     data := {| Image.width := w; Image.height := h;
                                Image.pixels := Pending |} |},
             None)])
  ∧ (∀ d e,
       file_image file = Some d → size_error width height = Some e →
       outcome (image_uploader env prefix width height) s = Raise e
       ∧ select printed (trace (image_uploader env prefix width height) s)
         = [size_line (Image.width d) (Image.height d)]
       ∧ pil_calls "resize"
           (trace (image_uploader env prefix width height) s)
         = [(Some {| oid := next_oid s; data := d |}, None)])
  ∧ (∀ d,
       file_image file = Some d →
       resize_accepts width → resize_accepts height →
       select printed (trace (image_uploader env prefix width height) s)
       = [size_line (Image.width d) (Image.height d)]).
Proof.
  intros Hfile.
  split; [by apply image_uploader_text_file|].
  split; [intros w h; by apply image_uploader_truncated_file|].
  split; [intros d e; by apply image_uploader_refused_size|].
  intros d. by apply image_uploader_decoded_file.
Qed.

Lemma image_uploader_opens_prints_resizes_witness :
  outcome (image_uploader truncated_run "img2img" 512 512) empty_session
  = Raise OSError
  ∧ select printed
      (trace (image_uploader truncated_run "img2img" 512 512) empty_session)
    = ["loaded input image of size (640, 480)"].
Proof.
  destruct (proj1 (proj2 (image_uploader_opens_prints_resizes
                            truncated_run "img2img" 512 512 empty_session
                            truncated_file eq_refl))
              640 480 eq_refl eq_refl)
    as (Hout & _ & Hprint & _).
  split; [exact Hout|exact Hprint].
Defined.
